(** * shorts-renderer: scripts/render.py

    A shallow embedding of the render pipeline (configuration reader, topic
    sanitizer, provider selection, the two stock-video candidate builders and
    the driver [main]) together with the properties the specification states
    about them.

    Conventions of the embedding.
    - A Python [str] is a [string]; its characters are the code points below
      256.  [isspace] is Python's whitespace test on that range; [upper] maps
      the letters a-z and leaves every other character as it is.
    - The search responses are typed as the providers document them; a JSON
      key that may be absent is an [option].  Directory creation and file
      writes do not fail.
    - [RuntimeError msg] is the only exception the script raises itself; the
      specification's error names are its messages.
    - The outside world (environment variables, clock, random source,
      subprocesses, HTTP) is a record of oracles; the calls made are logged. *)

From Stdlib Require Import ZArith Ascii String List Bool Lia DecimalString.
From stdpp Require Import base option list strings gmap.

Local Open Scope Z_scope.

(** ** Python strings *)

Module PyStr.

Definition code (c : ascii) : Z := Z.of_N (N_of_ascii c).

Definition between (lo hi : Z) (c : ascii) : bool :=
  (lo <=? code c) && (code c <=? hi).

(** [str.isspace] on one character, also the class [\s] of [re] on [str]
    patterns: TAB..CR, FS..US, space, NEL and NBSP. *)
Definition isspace (c : ascii) : bool :=
  between 9 13 c || between 28 31 c || (code c =? 32)
  || (code c =? 133) || (code c =? 160).

Definition space : ascii := " "%char.

Definition is_space_char (c : ascii) : bool := code c =? 32.

(** The complement of the class [[^a-zA-Z0-9 _-]]. *)
Definition allowed (c : ascii) : bool :=
  between 97 122 c || between 65 90 c || between 48 57 c
  || (code c =? 32) || (code c =? 95) || (code c =? 45).

Definition upper_char (c : ascii) : ascii :=
  if between 97 122 c then ascii_of_N (Z.to_N (code c - 32)) else c.

(** [s.upper()] *)
Fixpoint upper (s : string) : string :=
  match s with
  | EmptyString => EmptyString
  | String c s' => String (upper_char c) (upper s')
  end.

(** [s.lstrip()] *)
Fixpoint lstrip (s : string) : string :=
  match s with
  | EmptyString => EmptyString
  | String c s' => if isspace c then lstrip s' else s
  end.

(** [s.rstrip()] *)
Fixpoint rstrip (s : string) : string :=
  match s with
  | EmptyString => EmptyString
  | String c s' =>
      match rstrip s' with
      | EmptyString => if isspace c then EmptyString else String c EmptyString
      | r => String c r
      end
  end.

(** [s.strip()] *)
Definition strip (s : string) : string := rstrip (lstrip s).

(** The first character of [s] exists and satisfies [p]. *)
Definition starts_with (p : ascii -> bool) (s : string) : bool :=
  match s with
  | EmptyString => false
  | String c _ => p c
  end.

(** [re.sub(r"\s+", " ", s)]: every maximal run of whitespace becomes one
    space.  A whitespace character followed by another one is dropped, the
    last one of a run is replaced. *)
Fixpoint sub_ws_runs (s : string) : string :=
  match s with
  | EmptyString => EmptyString
  | String c s' =>
      if isspace c then
        if starts_with isspace s' then sub_ws_runs s'
        else String space (sub_ws_runs s')
      else String c (sub_ws_runs s')
  end.

(** [re.sub(r"[^a-zA-Z0-9 _-]", "", s)] *)
Fixpoint sub_disallowed (s : string) : string :=
  match s with
  | EmptyString => EmptyString
  | String c s' =>
      if allowed c then String c (sub_disallowed s') else sub_disallowed s'
  end.

Fixpoint take (n : nat) (s : string) : string :=
  match n, s with
  | S n', String c s' => String c (take n' s')
  | _, _ => EmptyString
  end.

(** [s[:k]]; a negative [k] counts from the end. *)
Definition slice_to (k : Z) (s : string) : string :=
  if k <? 0 then take (Z.to_nat (Z.of_nat (String.length s) + k)) s
  else take (Z.to_nat k) s.

(** Truthiness of a [str]. *)
Definition truthy (s : string) : bool :=
  match s with EmptyString => false | _ => true end.

(** [a or b] on strings. *)
Definition or_else (a b : string) : string := if truthy a then a else b.

(** [sep.join(l)] *)
Definition join (sep : string) (l : list string) : string :=
  String.concat sep l.

(** [str(n)] for an integer. *)
Definition of_int (n : Z) : string := NilZero.string_of_int (Z.to_int n).

(** Every character of [s] satisfies [p]. *)
Fixpoint all (p : ascii -> bool) (s : string) : bool :=
  match s with
  | EmptyString => true
  | String c s' => p c && all p s'
  end.

(** No two adjacent characters of [s] are both spaces. *)
Fixpoint no_double_space (s : string) : bool :=
  match s with
  | EmptyString => true
  | String c s' =>
      negb (is_space_char c && starts_with is_space_char s') && no_double_space s'
  end.

End PyStr.

(** ** Helpers *)

(** [safe_filename(s, max_len)] *)
Definition safe_filename (s : string) (max_len : Z) : string :=
  let s1 := PyStr.strip (PyStr.sub_ws_runs s) in
  let s2 := PyStr.sub_disallowed s1 in
  PyStr.or_else (PyStr.strip (PyStr.slice_to max_len s2)) "short".

(** [env(name, default)], reading [os.environ]. *)
Definition env (environ : gmap string string) (name default : string) : string :=
  match environ !! name with
  | Some v => if PyStr.truthy v then v else default
  | None => default
  end.

(** ** The outside world *)

Inductive exn :=
| RuntimeError (msg : string)
| HTTPError (status : Z)            (* [r.raise_for_status()] *)
| RequestException (what : string)  (* [requests.get], [r.json()] *)
| OSError (what : string)           (* [subprocess.run] cannot start the tool *)
| IndexError.                       (* [random.choice] of an empty sequence *)

(** Decoded search results of provider A (Pexels), typed as the provider
    documents them: lists of objects, string links, integer dimensions.  A
    key that is absent from a JSON object is [None]. *)
Module Pexels.
Record video_file := {
  link : option string;
  width : option Z;
  height : option Z
}.
Record video := { video_files : option (list video_file) }.
Record data := { videos : option (list video) }.
End Pexels.

(** Decoded search results of provider B (Pixabay). *)
Module Pixabay.
Record tier := { url : option string }.
Record hit := { videos : option (gmap string tier) }.
Record data := { hits : option (list hit) }.
End Pixabay.

(** An HTTP response: its status and its body. *)
Record response (A : Type) := {
  status_code : Z;
  content : A
}.
Arguments status_code {A} _.
Arguments content {A} _.

(** What the subprocess did: its exit status, its combined output and the
    files (path to size) it left behind. *)
Record completed := {
  returncode : Z;
  stdout : string;
  files_after : gmap string Z
}.

Record world := {
  environ : gmap string string;
  time_now : Z;                              (* [int(time.time())] *)
  random_draw : nat -> nat;                  (* the k-th number drawn *)
  subprocess_run : list string -> gmap string Z -> exn + completed;
  (* the search endpoints, by query and key; the body is [None] when
     [r.json()] cannot decode it *)
  pexels_api : string -> string -> exn + response (option Pexels.data);
  pixabay_api : string -> string -> exn + response (option Pixabay.data);
  (* a streamed download, by URL; the body is its chunks *)
  download_api : string -> exn + response (list string)
}.

Inductive event :=
| EvPrint (line : string)
| EvMkdir (path : string)
| EvSubprocess (cmd : list string) (exit_status : option Z)
| EvHttpGet (url : string) (headers params : list (string * string)).

Record state := {
  fs : gmap string Z;     (* regular files, path to size *)
  draws : nat;            (* numbers drawn so far *)
  log : list event        (* oldest first *)
}.

(** ** Candidate builders *)

(** The links [f["link"]] of the file variants that have a truthy link and
    pass [keep], in the order of the two nested loops. *)
Definition pexels_links (keep : Pexels.video_file -> bool)
    (videos : list Pexels.video) : list string :=
  v ← videos;
  f ← default [] (Pexels.video_files v);
  match Pexels.link f with
  | Some l => if PyStr.truthy l && keep f then [l] else []
  | None => []
  end.

(** [f.get("width", 0) <= f.get("height", 1)] *)
Definition portraitish (f : Pexels.video_file) : bool :=
  default 0 (Pexels.width f) <=? default 1 (Pexels.height f).

(** The candidates of provider A: the portrait-ish links, or every link when
    there is none. *)
Definition pexels_candidates (videos : list Pexels.video) : list string :=
  match pexels_links portraitish videos with
  | [] => pexels_links (fun _ => true) videos
  | candidates => candidates
  end.

Definition tiers : list string := ["large"; "medium"; "small"; "tiny"].

(** The inner loop over the tiers of one hit, up to its [break]. *)
Fixpoint first_tier_url (vids : gmap string Pixabay.tier) (ks : list string)
    : list string :=
  match ks with
  | [] => []
  | k :: ks' =>
      match vids !! k with
      | Some t =>
          match Pixabay.url t with
          | Some u => if PyStr.truthy u then [u] else first_tier_url vids ks'
          | None => first_tier_url vids ks'
          end
      | None => first_tier_url vids ks'
      end
  end.

(** The candidates of provider B. *)
Definition pixabay_candidates (hits : list Pixabay.hit) : list string :=
  h ← hits; first_tier_url (default ∅ (Pixabay.videos h)) tiers.

(** ** Paths *)

(** A [pathlib.Path], by its parts. *)
Definition path : Type := list string.

Definition path_str (p : path) : string := PyStr.join "/" p.

Definition path_parent (p : path) : path := removelast p.

Definition path_div (p : path) (name : string) : path := p ++ [name].

(** ** State and exceptions *)

Definition M (A : Type) : Type := state -> (exn + A) * state.

Definition ret {A} (a : A) : M A := fun st => (inr a, st).

Definition raise {A} (e : exn) : M A := fun st => (inl e, st).

Definition bind {A B} (m : M A) (k : A -> M B) : M B := fun st =>
  match m st with
  | (inr a, st') => k a st'
  | (inl e, st') => (inl e, st')
  end.

Declare Scope py_scope.
Delimit Scope py_scope with py.
Notation "x <- m ;; k" := (bind m (fun x => k))
  (at level 20, m at level 99, k at level 200, only parsing) : py_scope.
Notation "m ;; k" := (bind m (fun _ => k))
  (at level 100, k at level 200, only parsing, right associativity) : py_scope.

Definition emit (e : event) : M unit := fun st =>
  (inr tt, {| fs := fs st; draws := draws st; log := log st ++ [e] |}).

Definition print (line : string) : M unit := emit (EvPrint line).

(** [p.mkdir(parents=True, exist_ok=True)] *)
Definition mkdir (p : path) : M unit := emit (EvMkdir (path_str p)).

(** [r.json()] *)
Definition json {A} (r : response (option A)) : M A :=
  match content r with
  | Some d => ret d
  | None => raise (RequestException "JSONDecodeError")
  end.

(** [open(p, "wb")] and the writes of the non-empty chunks. *)
Definition write_chunks (p : path) (chunks : list string) : M unit := fun st =>
  let size := fold_left (fun n c => n + Z.of_nat (String.length c))
                        (filter (fun c => PyStr.truthy c = true) chunks) 0 in
  (inr tt, {| fs := <[path_str p := size]> (fs st); draws := draws st; log := log st |}).

(** [p.exists()] and [p.stat().st_size] *)
Definition stat (p : path) : M (option Z) := fun st => (inr (fs st !! path_str p), st).

(** The summary printed at the end. *)
Record summary := {
  job_id : string;
  topic : string;
  provider : string;
  voice : string;
  output : string
}.

(** [r.raise_for_status()] *)
Definition raise_for_status (status : Z) : M unit :=
  if (400 <=? status) && (status <? 600) then raise (HTTPError status) else ret tt.

Definition lift_api {A} (r : exn + A) : M A := fun st => (r, st).

Section Program.

Variable W : world.

Local Open Scope py_scope.

(** [random.choice(seq)] *)
Definition random_choice (seq : list string) : M string := fun st =>
  let st' := {| fs := fs st; draws := S (draws st); log := log st |} in
  match seq !! (random_draw W (draws st) mod length seq)%nat with
  | Some x => (inr x, st')
  | None => (inl IndexError, st)
  end.

(** [run(cmd)] *)
Definition run (cmd : list string) : M unit := fun st =>
  match subprocess_run W cmd (fs st) with
  | inl e =>
      (inl e, {| fs := fs st; draws := draws st;
                 log := log st ++ [EvSubprocess cmd None] |})
  | inr p =>
      let st' := {| fs := files_after p; draws := draws st;
                    log := log st ++ [EvSubprocess cmd (Some (returncode p));
                                      EvPrint (stdout p)] |} in
      if returncode p =? 0 then (inr tt, st')
      else (inl (RuntimeError ("Command failed: " +:+ PyStr.join " " cmd)), st')
  end.

Definition providers : list string := ["PEXELS"; "PIXABAY"].

(** [pick_provider(provider)] *)
Definition pick_provider (provider : string) : M string :=
  let p := PyStr.strip (PyStr.upper (PyStr.or_else provider "BOTH")) in
  if bool_decide (p ∈ providers) then ret p else random_choice providers.

(** [download_file(url, out_path)] *)
Definition download_file (url : string) (out_path : path) : M unit :=
  mkdir (path_parent out_path) ;;
  emit (EvHttpGet url [] []) ;;
  r <- lift_api (download_api W url) ;;
  raise_for_status (status_code r) ;;
  write_chunks out_path (content r).

(** [fetch_pexels_video(query, api_key)] *)
Definition fetch_pexels_video (query api_key : string) : M string :=
  if negb (PyStr.truthy api_key) then
    raise (RuntimeError "PEXELS_API_KEY is missing in GitHub Secrets.")
  else
    emit (EvHttpGet "https://api.pexels.com/videos/search"
            [("Authorization", api_key)]
            [("query", query); ("per_page", "10"); ("orientation", "portrait")]) ;;
    r <- lift_api (pexels_api W query api_key) ;;
    raise_for_status (status_code r) ;;
    data <- json r ;;
    let videos := default [] (Pexels.videos data) in
    match videos with
    | [] => raise (RuntimeError "No Pexels videos found for query.")
    | _ =>
        match pexels_candidates videos with
        | [] => raise (RuntimeError "No downloadable Pexels video link found.")
        | candidates => random_choice candidates
        end
    end.

(** [fetch_pixabay_video(query, api_key)] *)
Definition fetch_pixabay_video (query api_key : string) : M string :=
  if negb (PyStr.truthy api_key) then
    raise (RuntimeError "PIXABAY_API_KEY is missing in GitHub Secrets.")
  else
    emit (EvHttpGet "https://pixabay.com/api/videos/" []
            [("key", api_key); ("q", query); ("per_page", "10")]) ;;
    r <- lift_api (pixabay_api W query api_key) ;;
    raise_for_status (status_code r) ;;
    data <- json r ;;
    let hits := default [] (Pixabay.hits data) in
    match hits with
    | [] => raise (RuntimeError "No Pixabay videos found for query.")
    | _ =>
        match pixabay_candidates hits with
        | [] => raise (RuntimeError "No downloadable Pixabay video url found.")
        | candidates => random_choice candidates
        end
    end.

(** [tts_edge(text, voice, out_wav)] *)
Definition tts_cmd (text voice : string) (out_wav : path) : list string :=
  ["edge-tts"; "--voice"; voice; "--text"; text; "--write-media"; path_str out_wav].

Definition tts_edge (text voice : string) (out_wav : path) : M unit :=
  mkdir (path_parent out_wav) ;;
  run (tts_cmd text voice out_wav).

Definition out_dir : path := ["out"].
Definition audio_wav : path := path_div out_dir "voice.wav".
Definition bg_mp4 : path := path_div out_dir "bg.mp4".
Definition final_mp4 : path := path_div out_dir "final.mp4".

Definition ffmpeg_cmd : list string :=
  ["ffmpeg"; "-y";
   "-i"; path_str bg_mp4;
   "-i"; path_str audio_wav;
   "-vf"; "scale=1080:1920:force_original_aspect_ratio=increase,crop=1080:1920";
   "-c:v"; "libx264"; "-pix_fmt"; "yuv420p";
   "-c:a"; "aac";
   "-shortest";
   path_str final_mp4].

Definition script_empty : exn :=
  RuntimeError "SCRIPT is empty. Pass script input from n8n.".

Definition output_invalid : exn :=
  RuntimeError "final.mp4 not created or too small.".

(** [main()] *)
Definition main : M summary :=
  let job_id := env (environ W) "JOB_ID" ("job_" +:+ PyStr.of_int (time_now W)) in
  let topic := env (environ W) "TOPIC" "trend" in
  let script := env (environ W) "SCRIPT" "" in
  let provider_pref := env (environ W) "PROVIDER" "BOTH" in
  let voice := env (environ W) "VOICE" "en-US-AriaNeural" in
  let pexels_key := env (environ W) "PEXELS_API_KEY" "" in
  let pixabay_key := env (environ W) "PIXABAY_API_KEY" "" in
  if negb (PyStr.truthy (PyStr.strip script)) then raise script_empty
  else
    mkdir out_dir ;;
    print ("[TTS] voice=" +:+ voice) ;;
    tts_edge script voice audio_wav ;;
    let query := safe_filename topic 60 in
    chosen <- pick_provider provider_pref ;;
    print ("[VIDEO] provider=" +:+ chosen +:+ " query=" +:+ query) ;;
    video_url <- (if String.eqb chosen "PEXELS"
                  then fetch_pexels_video query pexels_key
                  else fetch_pixabay_video query pixabay_key) ;;
    print ("[DOWNLOAD] " +:+ video_url) ;;
    download_file video_url bg_mp4 ;;
    print "[FFMPEG] rendering out/final.mp4" ;;
    run ffmpeg_cmd ;;
    size <- stat final_mp4 ;;
    match size with
    | None => raise output_invalid
    | Some n =>
        if n <? 10000 then raise output_invalid
        else
          print "✅ DONE" ;;
          ret {| job_id := job_id; topic := topic; provider := chosen;
                 voice := voice; output := path_str final_mp4 |}
    end.

End Program.

(** A run of the script in world [W] on a filesystem [files]. *)
Definition initial (files : gmap string Z) : state :=
  {| fs := files; draws := 0; log := [] |}.

Definition run_main (W : world) (files : gmap string Z) : (exn + summary) * state :=
  main W (initial files).

(** * Vocabulary of the properties *)

(** [m] leaves the log as it is but for appended events that satisfy [P]. *)
Definition appends (P : event -> Prop) {A} (m : M A) : Prop :=
  forall st r st', m st = (r, st') ->
    exists l, log st' = log st ++ l /\ Forall P l.

(** [P] holds of the events that are neither a subprocess nor its output. *)
Record passive (P : event -> Prop) : Prop := {
  passive_print : forall line, P (EvPrint line);
  passive_mkdir : forall p, P (EvMkdir p);
  passive_http : forall u h q, P (EvHttpGet u h q)
}.

(** What every result of [safe_filename] with a maximum of [n] is. *)
Record clean (n : Z) (r : string) : Prop := {
  clean_allowed : PyStr.all PyStr.allowed r = true;
  clean_stripped : PyStr.strip r = r;
  clean_length : Z.of_nat (String.length r) <= n;
  clean_nonempty : PyStr.truthy r = true
}.

(** A character outside [[a-zA-Z0-9_-]]: disallowed, or the space. *)
Definition droppable (c : ascii) : bool :=
  negb (PyStr.allowed c) || PyStr.is_space_char c.

(** The encoder was run and exited with status 0. *)
Definition encoder_ok : event := EvSubprocess ffmpeg_cmd (Some 0).

(** What the final check decides, on the filesystem the encoder left. *)
Definition validated (r : exn + summary) (st : state) : Prop :=
  match fs st !! path_str final_mp4 with
  | Some n =>
      if 10000 <=? n then exists s, r = inr s /\ output s = path_str final_mp4
      else r = inl output_invalid
  | None => r = inl output_invalid
  end.

(** Started without [encoder_ok] in the log, a run of [m] that ends with it in
    the log ends in [Q]. *)
Definition after_encoder {A} (m : M A) (Q : exn + A -> state -> Prop) : Prop :=
  forall st r st',
    encoder_ok ∉ log st -> m st = (r, st') -> encoder_ok ∈ log st' -> Q r st'.

(** The two checks and the choice that follow a decoded Pexels response. *)
Definition pexels_select (W : world) (videos : list Pexels.video) : M string :=
  match videos with
  | [] => raise (RuntimeError "No Pexels videos found for query.")
  | _ =>
      match pexels_candidates videos with
      | [] => raise (RuntimeError "No downloadable Pexels video link found.")
      | candidates => random_choice W candidates
      end
  end.

(** The two checks and the choice that follow a decoded Pixabay response. *)
Definition pixabay_select (W : world) (hits : list Pixabay.hit) : M string :=
  match hits with
  | [] => raise (RuntimeError "No Pixabay videos found for query.")
  | _ =>
      match pixabay_candidates hits with
      | [] => raise (RuntimeError "No downloadable Pixabay video url found.")
      | candidates => random_choice W candidates
      end
  end.

(** A response that [raise_for_status] lets through. *)
Definition status_ok (status : Z) : Prop := status < 400 \/ 600 <= status.

Definition requested (e : event) (st : state) : state :=
  {| fs := fs st; draws := draws st; log := log st ++ [e] |}.

(** [url] is the non-empty link of a file variant of [videos] that passes
    [keep]. *)
Definition pexels_variant (videos : list Pexels.video)
    (keep : Pexels.video_file -> bool) (url : string) : Prop :=
  exists v f, v ∈ videos /\ f ∈ default [] (Pexels.video_files v)
              /\ Pexels.link f = Some url /\ url <> "" /\ keep f = true.

Definition any_file (f : Pexels.video_file) : bool := true.


(** Tier [k] of a hit is present with the non-empty url [u]. *)
Definition usable (vids : gmap string Pixabay.tier) (k u : string) : Prop :=
  exists t, vids !! k = Some t /\ Pixabay.url t = Some u /\ u <> "".

(** The specification's reading: the first tier, in order, that is a key of
    the result. *)
Fixpoint first_present (vids : gmap string Pixabay.tier) (ks : list string)
    : option string :=
  match ks with
  | [] => None
  | k :: ks' => if decide (is_Some (vids !! k)) then Some k else first_present vids ks'
  end.

(** Some tier of some hit is present with a non-empty url [u]. *)
Definition pixabay_variant (hits : list Pixabay.hit) (u : string) : Prop :=
  exists h k, h ∈ hits /\ k ∈ tiers /\ usable (default ∅ (Pixabay.videos h)) k u.


(** ** Sample runs *)

Module Scenario.

Definition landscape : Pexels.video_file :=
  {| Pexels.link := Some "https://videos.example/wide.mp4";
     Pexels.width := Some 1920; Pexels.height := Some 1080 |}.

Definition portrait : Pexels.video_file :=
  {| Pexels.link := Some "https://videos.example/tall.mp4";
     Pexels.width := Some 1080; Pexels.height := Some 1920 |}.

Definition found : Pexels.data :=
  {| Pexels.videos := Some [ {| Pexels.video_files := Some [landscape; portrait] |} ] |}.

(** Both tools exit with status 0; the encoder leaves a final file of
    [size] bytes, or none. *)
Definition tools (size : option Z) (cmd : list string) (files : gmap string Z)
    : exn + completed :=
  inr {| returncode := 0;
         stdout := "";
         files_after :=
           match cmd with
           | "ffmpeg" :: _ =>
               match size with
               | Some n => <["out/final.mp4" := n]> files
               | None => delete "out/final.mp4" files
               end
           | _ => <["out/voice.wav" := 48000]> files
           end |}.

Definition studio (vars : gmap string string) (size : option Z) (draw : nat) : world :=
  {| environ := vars;
     time_now := 1700000000;
     random_draw := fun _ => draw;
     subprocess_run := tools size;
     pexels_api := fun _ _ => inr {| status_code := 200; content := Some found |};
     pixabay_api := fun _ _ => inr {| status_code := 200; content := None |};
     download_api := fun _ => inr {| status_code := 200; content := ["data"] |} |}.

Definition vars : gmap string string :=
  <["SCRIPT" := "Hello there"]> (<["PROVIDER" := "pexels"]>
    (<["PEXELS_API_KEY" := "secret"]> ∅)).

(** A world whose search endpoints answer 200 with the given bodies. *)
Definition answering (a : option Pexels.data) (b : option Pixabay.data)
    (draw : nat) : world :=
  {| environ := vars;
     time_now := 1700000000;
     random_draw := fun _ => draw;
     subprocess_run := tools None;
     pexels_api := fun _ _ => inr {| status_code := 200; content := a |};
     pixabay_api := fun _ _ => inr {| status_code := 200; content := b |};
     download_api := fun _ => inr {| status_code := 200; content := ["data"] |} |}.

Definition pexels_of (files : list Pexels.video_file) : option Pexels.data :=
  Some {| Pexels.videos := Some [ {| Pexels.video_files := Some files |} ] |}.




(** The large tier is listed with an empty url. *)
Definition medium_only : gmap string Pixabay.tier :=
  <["large" := {| Pixabay.url := Some "" |}]>
    (<["medium" := {| Pixabay.url := Some "https://cdn.example/medium.mp4" |}]> ∅).

End Scenario.

(** ** Sample faults *)

Module Faults.

(** A world given by its environment and by what each outside party answers. *)
Definition world_of (vars : gmap string string)
    (tool : list string -> gmap string Z -> exn + completed)
    (a : exn + response (option Pexels.data))
    (b : exn + response (option Pixabay.data))
    (d : exn + response (list string)) (draw : nat) : world :=
  {| environ := vars;
     time_now := 1700000000;
     random_draw := fun _ => draw;
     subprocess_run := tool;
     pexels_api := fun _ _ => a;
     pixabay_api := fun _ _ => b;
     download_api := fun _ => d |}.

Definition offline {A} : exn + response A := inl (RequestException "ConnectionError").

Definition answer {A} (status : Z) (body : A) : exn + response A :=
  inr {| status_code := status; content := body |}.

(** Every tool exits with [status] and leaves the files as they are. *)
Definition exits (status : Z) (cmd : list string) (files : gmap string Z)
    : exn + completed :=
  inr {| returncode := status; stdout := "log"; files_after := files |}.

(** The synthesizer exits with 0, the encoder with [status]. *)
Definition encoder_exits (status : Z) (cmd : list string) (files : gmap string Z)
    : exn + completed :=
  match cmd with
  | "ffmpeg" :: _ => exits status cmd files
  | _ => exits 0 cmd files
  end.

End Faults.

(** How a search fails before its results are looked at: by the transport, by
    an error status, or by a body that is not JSON. *)
Definition transport_outcome {A} (api : exn + response (option A))
    (r : exn + string) : Prop :=
  (forall e, api = inl e -> r = inl e)
  /\ (forall rsp, api = inr rsp -> 400 <= status_code rsp < 600 ->
        r = inl (HTTPError (status_code rsp)))
  /\ (forall rsp, api = inr rsp -> status_ok (status_code rsp) ->
        content rsp = None -> r = inl (RequestException "JSONDecodeError")).

(** The search request the driver sends to the provider [chosen]. *)
Definition search_request (W : world) (chosen query : string) : event :=
  if String.eqb chosen "PEXELS" then
    EvHttpGet "https://api.pexels.com/videos/search"
      [("Authorization", env (environ W) "PEXELS_API_KEY" "")]
      [("query", query); ("per_page", "10"); ("orientation", "portrait")]
  else
    EvHttpGet "https://pixabay.com/api/videos/" []
      [("key", env (environ W) "PIXABAY_API_KEY" ""); ("q", query); ("per_page", "10")].

(** The encoder was invoked, whatever came of it. *)
Definition encoder_run (e : event) : Prop :=
  exists status, e = EvSubprocess ffmpeg_cmd status.

(** What a run ends in once the encoder has been invoked, by its status. *)
Definition encoder_verdict (r : exn + summary) (st : state) : Prop :=
  forall status, EvSubprocess ffmpeg_cmd status ∈ log st ->
    match status with
    | None => exists e, r = inl e
    | Some rc =>
        if rc =? 0 then validated r st
        else r = inl (RuntimeError ("Command failed: " +:+ PyStr.join " " ffmpeg_cmd))
    end.

(** Started without an encoder run in the log, [m] ends in [Q]. *)
Definition before_encoder {A} (m : M A) (Q : exn + A -> state -> Prop) : Prop :=
  forall st r st',
    Forall (fun e => ~ encoder_run e) (log st) -> m st = (r, st') -> Q r st'.

(** * Properties *)

(** ** Strings *)

Module PyStrFacts.
Import PyStr.

Lemma is_space_char_eq c : is_space_char c = true -> c = space.
Proof. destruct c as [[] [] [] [] [] [] [] []]; vm_compute; congruence. Qed.

Lemma allowed_isspace c : allowed c = true -> isspace c = true -> c = space.
Proof. destruct c as [[] [] [] [] [] [] [] []]; vm_compute; congruence. Qed.

Lemma isspace_space : isspace space = true.
Proof. reflexivity. Qed.

Lemma all_take p n s : all p s = true -> all p (take n s) = true.
Proof.
  revert s; induction n as [|n IH]; intros [|c s]; simpl; auto.
  intros [Hc Hs]%andb_prop. rewrite Hc; simpl; auto.
Qed.

Lemma all_slice_to p k s : all p s = true -> all p (slice_to k s) = true.
Proof. unfold slice_to; destruct (k <? 0); apply all_take. Qed.

Lemma all_lstrip p s : all p s = true -> all p (lstrip s) = true.
Proof.
  induction s as [|c s IH]; simpl; auto.
  intros H. destruct (isspace c); auto.
  apply andb_prop in H as [_ H]; auto.
Qed.

Lemma all_rstrip p s : all p s = true -> all p (rstrip s) = true.
Proof.
  induction s as [|c s IH]; simpl; auto.
  intros [Hc Hs]%andb_prop. specialize (IH Hs).
  destruct (rstrip s) as [|a r].
  - destruct (isspace c); simpl; auto. now rewrite Hc.
  - change (all p (String c (String a r))) with (p c && all p (String a r)).
    now rewrite Hc, IH.
Qed.

Lemma all_strip p s : all p s = true -> all p (strip s) = true.
Proof. intros H. now apply all_rstrip, all_lstrip. Qed.

Lemma all_sub_ws_runs p s :
  p space = true -> all p s = true -> all p (sub_ws_runs s) = true.
Proof.
  intros Hsp. induction s as [|c s IH]; simpl; auto.
  intros [Hc Hs]%andb_prop. specialize (IH Hs).
  destruct (isspace c).
  - destruct (starts_with isspace s); simpl; auto. now rewrite Hsp.
  - simpl. now rewrite Hc.
Qed.

Lemma all_sub_disallowed s : all allowed (sub_disallowed s) = true.
Proof.
  induction s as [|c s IH]; simpl; auto.
  destruct (allowed c) eqn:E; simpl; auto. now rewrite E.
Qed.

Lemma sub_disallowed_id s : all allowed s = true -> sub_disallowed s = s.
Proof.
  induction s as [|c s IH]; simpl; auto.
  intros [Hc Hs]%andb_prop. rewrite Hc. now rewrite IH.
Qed.

Lemma all_impl (p q : ascii -> bool) s :
  (forall c, p c = true -> q c = true) -> all p s = true -> all q s = true.
Proof.
  intros Hpq. induction s as [|c s IH]; simpl; auto.
  intros [Hc Hs]%andb_prop. rewrite (Hpq _ Hc). auto.
Qed.

(** *** Stripping *)

Lemma lstrip_clean s : starts_with isspace (lstrip s) = false.
Proof.
  induction s as [|c s IH]; simpl; auto.
  destruct (isspace c) eqn:E; simpl; auto.
Qed.

Lemma lstrip_id s : starts_with isspace s = false -> lstrip s = s.
Proof. destruct s as [|c s]; simpl; auto. now intros ->. Qed.

Lemma rstrip_cons c s :
  rstrip (String c s) =
    if truthy (rstrip s) then String c (rstrip s)
    else if isspace c then EmptyString else String c EmptyString.
Proof. simpl. now destruct (rstrip s). Qed.

Lemma rstrip_starts s :
  starts_with isspace s = false -> starts_with isspace (rstrip s) = false.
Proof.
  destruct s as [|c s]; auto. rewrite rstrip_cons. simpl. intros E.
  destruct (truthy (rstrip s)); simpl; auto. now rewrite E.
Qed.

Lemma rstrip_rstrip s : rstrip (rstrip s) = rstrip s.
Proof.
  induction s as [|c s IH]; auto.
  rewrite rstrip_cons.
  destruct (truthy (rstrip s)) eqn:T.
  - rewrite rstrip_cons, IH, T. reflexivity.
  - destruct (isspace c) eqn:E; auto. simpl. now rewrite E.
Qed.

Lemma strip_strip s : strip (strip s) = strip s.
Proof.
  unfold strip.
  rewrite (lstrip_id (rstrip (lstrip s))).
  - apply rstrip_rstrip.
  - apply rstrip_starts, lstrip_clean.
Qed.

Lemma lstrip_all_space s : all isspace s = true -> lstrip s = EmptyString.
Proof.
  induction s as [|c s IH]; simpl; auto.
  intros [Hc Hs]%andb_prop. rewrite Hc. auto.
Qed.

Lemma strip_all_space s : all isspace s = true -> strip s = EmptyString.
Proof. intros H. unfold strip. now rewrite lstrip_all_space. Qed.

(** *** Lengths *)

Lemma length_take n s : (String.length (take n s) <= n)%nat.
Proof.
  revert s; induction n as [|n IH]; intros [|c s]; simpl; try lia.
  specialize (IH s). lia.
Qed.

Lemma take_all n s : (String.length s <= n)%nat -> take n s = s.
Proof.
  revert s; induction n as [|n IH]; intros [|c s]; simpl; auto; try lia.
  intros H. rewrite IH; auto. lia.
Qed.

Lemma length_slice_to k s :
  0 <= k -> Z.of_nat (String.length (slice_to k s)) <= k.
Proof.
  intros Hk. unfold slice_to.
  destruct (k <? 0) eqn:E; [lia|].
  pose proof (length_take (Z.to_nat k) s). lia.
Qed.

Lemma slice_to_all k s :
  Z.of_nat (String.length s) <= k -> slice_to k s = s.
Proof.
  intros H. unfold slice_to.
  destruct (k <? 0) eqn:E; [lia|].
  apply take_all. lia.
Qed.

Lemma length_lstrip s : (String.length (lstrip s) <= String.length s)%nat.
Proof.
  induction s as [|c s IH]; simpl; auto.
  destruct (isspace c); simpl; lia.
Qed.

Lemma length_rstrip s : (String.length (rstrip s) <= String.length s)%nat.
Proof.
  induction s as [|c s IH]; auto.
  rewrite rstrip_cons.
  destruct (truthy (rstrip s)); [|destruct (isspace c)]; simpl; lia.
Qed.

Lemma length_strip s : (String.length (strip s) <= String.length s)%nat.
Proof.
  unfold strip. pose proof (length_rstrip (lstrip s)).
  pose proof (length_lstrip s). lia.
Qed.

(** *** Adjacent spaces *)

Lemma starts_with_take p n s :
  starts_with p (take n s) = true -> starts_with p s = true.
Proof. destruct n, s; simpl; auto; discriminate. Qed.

Lemma starts_with_rstrip p s :
  starts_with p (rstrip s) = true -> starts_with p s = true.
Proof.
  destruct s as [|c s]; auto. rewrite rstrip_cons.
  destruct (truthy (rstrip s)); [|destruct (isspace c)]; simpl; auto; discriminate.
Qed.

Lemma starts_with_sub_ws_runs s :
  starts_with is_space_char (sub_ws_runs s) = true -> starts_with isspace s = true.
Proof.
  induction s as [|c s IH]; simpl; auto.
  destruct (isspace c) eqn:E; auto.
  simpl. intros H. apply is_space_char_eq in H. subst c. discriminate.
Qed.

Lemma nds_tail c s : no_double_space (String c s) = true -> no_double_space s = true.
Proof. simpl. now intros [_ H]%andb_prop. Qed.

Lemma nds_cons c s :
  (starts_with is_space_char s = true -> is_space_char c = false) ->
  no_double_space s = true -> no_double_space (String c s) = true.
Proof.
  simpl. intros H ->. rewrite andb_true_r.
  destruct (starts_with is_space_char s); [rewrite H|]; auto.
  now rewrite andb_false_r.
Qed.

Lemma nds_head c s :
  no_double_space (String c s) = true ->
  starts_with is_space_char s = true -> is_space_char c = false.
Proof.
  simpl. intros [H _]%andb_prop Hs. rewrite Hs, andb_true_r in H.
  now destruct (is_space_char c).
Qed.

Lemma nds_lstrip s : no_double_space s = true -> no_double_space (lstrip s) = true.
Proof.
  induction s as [|c s IH]; auto. intros H.
  cbn [lstrip]. destruct (isspace c); auto.
  apply IH. now apply nds_tail in H.
Qed.

Lemma nds_rstrip s : no_double_space s = true -> no_double_space (rstrip s) = true.
Proof.
  induction s as [|c s IH]; auto. intros H.
  rewrite rstrip_cons.
  destruct (truthy (rstrip s));
    [|destruct (isspace c); [reflexivity | simpl; now rewrite andb_false_r]].
  apply nds_cons.
  - intros Hs. apply (nds_head _ _ H). now apply starts_with_rstrip.
  - apply IH. now apply nds_tail in H.
Qed.

Lemma nds_strip s : no_double_space s = true -> no_double_space (strip s) = true.
Proof. intros H. now apply nds_rstrip, nds_lstrip. Qed.

Lemma nds_take n s : no_double_space s = true -> no_double_space (take n s) = true.
Proof.
  revert s; induction n as [|n IH]; intros [|c s]; auto. intros H.
  cbn [take]. apply nds_cons.
  - intros Hs. apply (nds_head _ _ H). now apply starts_with_take in Hs.
  - apply IH. now apply nds_tail in H.
Qed.

Lemma nds_slice_to k s :
  no_double_space s = true -> no_double_space (slice_to k s) = true.
Proof. unfold slice_to. destruct (k <? 0); apply nds_take. Qed.

(** After the whitespace runs are collapsed no two spaces are adjacent. *)
Lemma nds_sub_ws_runs s : no_double_space (sub_ws_runs s) = true.
Proof.
  induction s as [|c s IH]; auto.
  cbn [sub_ws_runs].
  destruct (isspace c) eqn:E.
  - destruct (starts_with isspace s) eqn:F; auto.
    apply nds_cons; auto.
    intros H. apply starts_with_sub_ws_runs in H. congruence.
  - apply nds_cons; auto.
    intros _. destruct (is_space_char c) eqn:G; auto.
    apply is_space_char_eq in G. subst c. discriminate.
Qed.

(** A string of allowed characters without adjacent spaces has no
    whitespace run to collapse. *)
Lemma sub_ws_runs_id s :
  all allowed s = true -> no_double_space s = true -> sub_ws_runs s = s.
Proof.
  induction s as [|c s IH]; auto.
  intros Ha Hn. pose proof (nds_head _ _ Hn) as Hh.
  apply nds_tail in Hn. simpl in Ha. apply andb_prop in Ha as [Hc Hs].
  cbn [sub_ws_runs]. rewrite (IH Hs Hn).
  destruct (isspace c) eqn:E; auto.
  assert (c = space) by now apply allowed_isspace. subst c.
  destruct s as [|c' s]; auto. simpl in Hs |- *.
  apply andb_prop in Hs as [Hc' _].
  destruct (isspace c') eqn:E'; auto.
  assert (c' = space) by now apply allowed_isspace. subst c'.
  specialize (Hh eq_refl). discriminate.
Qed.

End PyStrFacts.

(** ** Effects: what a computation adds to the log *)

Section Effects.
Variable W : world.
Variable P : event -> Prop.

Lemma bind_inv {A B} (m : M A) (k : A -> M B) st r st' :
  bind m k st = (r, st') ->
  (exists e, m st = (inl e, st') /\ r = inl e)
  \/ (exists a st1, m st = (inr a, st1) /\ k a st1 = (r, st')).
Proof.
  unfold bind. destruct (m st) as [[e|a] st1].
  - intros [= <- <-]. left. eauto.
  - intros H. right. eauto.
Qed.

Lemma appends_bind {A B} (m : M A) (k : A -> M B) :
  appends P m -> (forall a, appends P (k a)) -> appends P (bind m k).
Proof.
  intros Hm Hk st r st' H.
  apply bind_inv in H as [(e & H & ->) | (a & st1 & H1 & H2)].
  - eapply Hm; eauto.
  - destruct (Hm _ _ _ H1) as (l1 & E1 & F1).
    destruct (Hk a _ _ _ H2) as (l2 & E2 & F2).
    exists (l1 ++ l2). rewrite E2, E1, <- app_assoc. split; auto.
    apply Forall_app; auto.
Qed.

Lemma appends_silent {A} (m : M A) :
  (forall st, log (m st).2 = log st) -> appends P m.
Proof.
  intros H st r st' E. exists []. rewrite app_nil_r. split; auto.
  specialize (H st). now rewrite E in H.
Qed.

Lemma appends_ret {A} (a : A) : appends P (ret a).
Proof. now apply appends_silent. Qed.

Lemma appends_raise {A} e : appends P (@raise A e).
Proof. now apply appends_silent. Qed.

Lemma appends_lift_api {A} (r : exn + A) : appends P (lift_api r).
Proof. now apply appends_silent. Qed.

Lemma appends_stat p : appends P (stat p).
Proof. now apply appends_silent. Qed.

Lemma appends_write_chunks p chunks : appends P (write_chunks p chunks).
Proof. now apply appends_silent. Qed.

Lemma appends_raise_for_status status : appends P (raise_for_status status).
Proof. unfold raise_for_status. destruct (_ && _); now apply appends_silent. Qed.

Lemma appends_json {A} (r : response (option A)) : appends P (json r).
Proof. unfold json. destruct (content r); now apply appends_silent. Qed.

Lemma appends_random_choice seq : appends P (random_choice W seq).
Proof.
  apply appends_silent. intros st. unfold random_choice.
  now destruct (seq !! _).
Qed.

Lemma appends_emit e : P e -> appends P (emit e).
Proof.
  intros He st r st' [= <- <-]. exists [e]. split; auto.
Qed.

Lemma appends_run cmd :
  (forall status, P (EvSubprocess cmd status)) ->
  (forall line, P (EvPrint line)) ->
  appends P (run W cmd).
Proof.
  intros Hc Hp st r st'. unfold run.
  destruct (subprocess_run W cmd (fs st)) as [e|p].
  - intros [= <- <-]. exists [EvSubprocess cmd None]. split; auto.
  - intros H.
    exists [EvSubprocess cmd (Some (returncode p)); EvPrint (stdout p)].
    split; [|auto].
    destruct (returncode p =? 0); now injection H as <- <-.
Qed.

Hypothesis HP : passive P.

Lemma appends_print line : appends P (print line).
Proof using HP. apply appends_emit, HP. Qed.

Lemma appends_mkdir p : appends P (mkdir p).
Proof using HP. apply appends_emit, HP. Qed.

Lemma appends_pick_provider provider : appends P (pick_provider W provider).
Proof.
  unfold pick_provider. cbv zeta.
  destruct (bool_decide _); [apply appends_ret | apply appends_random_choice].
Qed.

Ltac effects :=
  repeat first
    [ apply appends_bind; [|intros ?]
    | apply appends_ret | apply appends_raise | apply appends_lift_api
    | apply appends_stat | apply appends_write_chunks
    | apply appends_raise_for_status | apply appends_json
    | apply appends_random_choice | apply appends_print | apply appends_mkdir
    | apply appends_emit, HP
    | match goal with
      | |- appends _ (match ?x with _ => _ end) => destruct x
      end ].

Lemma appends_download_file url out_path :
  appends P (download_file W url out_path).
Proof using HP. unfold download_file. effects. Qed.

Lemma appends_fetch_pexels_video query api_key :
  appends P (fetch_pexels_video W query api_key).
Proof using HP. unfold fetch_pexels_video. effects. Qed.

Lemma appends_fetch_pixabay_video query api_key :
  appends P (fetch_pixabay_video W query api_key).
Proof using HP. unfold fetch_pixabay_video. effects. Qed.

End Effects.

(** ** Topic sanitization *)

Section SafeFilename.
Import PyStr PyStrFacts.

Lemma or_else_short_clean n c :
  5 <= n -> all allowed c = true -> strip c = c ->
  Z.of_nat (String.length c) <= n -> clean n (or_else c "short").
Proof.
  intros Hn Ha Hs Hl. unfold or_else.
  destruct (truthy c) eqn:T.
  - now split.
  - split; try reflexivity. simpl. lia.
Qed.

Lemma safe_filename_clean s n : 5 <= n -> clean n (safe_filename s n).
Proof.
  intros Hn. unfold safe_filename. cbv zeta.
  set (s2 := sub_disallowed _).
  apply or_else_short_clean; auto.
  - apply all_strip, all_slice_to, all_sub_disallowed.
  - apply strip_strip.
  - pose proof (length_strip (slice_to n s2)).
    pose proof (length_slice_to n s2). lia.
Qed.

Lemma safe_filename_fixed r n :
  clean n r -> no_double_space r = true -> safe_filename r n = r.
Proof.
  intros [Ha Hs Hl Ht] Hn. unfold safe_filename. cbv zeta.
  rewrite (sub_ws_runs_id r Ha Hn), Hs, (sub_disallowed_id r Ha).
  rewrite (slice_to_all n r Hl), Hs.
  unfold or_else. now rewrite Ht.
Qed.

Lemma safe_filename_nds r n :
  all allowed r = true -> no_double_space (safe_filename r n) = true.
Proof.
  intros Ha. unfold safe_filename. cbv zeta.
  rewrite sub_disallowed_id.
  - unfold or_else.
    destruct (truthy _); [|reflexivity].
    apply nds_strip, nds_slice_to, nds_strip, nds_sub_ws_runs.
  - apply all_strip, all_sub_ws_runs; auto.
Qed.

Lemma sub_disallowed_droppable s :
  all droppable s = true -> all isspace (sub_disallowed s) = true.
Proof.
  induction s as [|c s IH]; auto. simpl.
  intros [Hc Hs]%andb_prop. specialize (IH Hs).
  destruct (allowed c) eqn:E; auto.
  simpl. rewrite IH, andb_true_r.
  unfold droppable in Hc. rewrite E in Hc. simpl in Hc.
  apply is_space_char_eq in Hc. now subst c.
Qed.

Lemma safe_filename_droppable s n :
  all droppable s = true -> safe_filename s n = "short".
Proof.
  intros H. unfold safe_filename. cbv zeta.
  rewrite (strip_all_space (slice_to n _)); [reflexivity|].
  apply all_slice_to, sub_disallowed_droppable, all_strip, all_sub_ws_runs; auto.
Qed.

(** Sanitizing twice reaches a fixed point. *)
Lemma safe_filename_stable s n :
  5 <= n ->
  let r := safe_filename (safe_filename s n) n in safe_filename r n = r.
Proof.
  intros Hn r. apply safe_filename_fixed.
  - now apply safe_filename_clean.
  - apply safe_filename_nds, (clean_allowed n), safe_filename_clean, Hn.
Qed.

End SafeFilename.

(** C8, as it holds on the code.  For a maximum length of at least 5 (the
    pipeline uses 60, the default is 80), sanitizing an already sanitized string
    returns it unchanged exactly when it has no two adjacent spaces; and a string
    that consists only of disallowed characters is sanitized to the fallback
    [short], whatever the maximum length. *)
Theorem safe_filename_resanitize (s : string) (max_len : Z) :
  (5 <= max_len ->
   (safe_filename (safe_filename s max_len) max_len = safe_filename s max_len
    <-> PyStr.no_double_space (safe_filename s max_len) = true))
  /\ (PyStr.all (fun c => negb (PyStr.allowed c)) s = true ->
      safe_filename s max_len = "short").
Proof.
  split.
  - intros Hn. split.
    + intros <-. apply safe_filename_nds.
      apply (clean_allowed max_len), safe_filename_clean, Hn.
    + apply safe_filename_fixed, safe_filename_clean, Hn.
  - intros H. apply safe_filename_droppable.
    revert H. apply PyStrFacts.all_impl.
    intros c Hc. unfold droppable. now rewrite Hc.
Qed.

Lemma safe_filename_resanitize_witness :
  safe_filename (safe_filename "  city   lights!  " 60) 60
    = safe_filename "  city   lights!  " 60
  /\ safe_filename "?!*" 60 = "short".
Proof.
  split.
  - apply (proj1 (safe_filename_resanitize "  city   lights!  " 60)); [lia | reflexivity].
  - apply (proj2 (safe_filename_resanitize "?!*" 60)). reflexivity.
Defined.

(** C8 as stated fails: removing the [!] of [a ! b] leaves two adjacent
    spaces, which a second sanitization collapses. *)
Lemma safe_filename_not_idempotent :
  safe_filename "a ! b" 60 = "a  b"
  /\ safe_filename (safe_filename "a ! b" 60) 60 = "a b"
  /\ safe_filename (safe_filename "a ! b" 60) 60 <> safe_filename "a ! b" 60.
Proof. repeat split. discriminate. Qed.

(** ** The driver: validation of the output *)

Section Driver.
Variable W : world.

Lemma passive_not_encoder : passive (fun e => e <> encoder_ok).
Proof. split; intros; discriminate. Qed.

Lemma passive_any : passive (fun _ => True).
Proof. now split. Qed.

Lemma tts_cmd_not_encoder text voice out_wav status :
  EvSubprocess (tts_cmd text voice out_wav) status <> encoder_ok.
Proof. discriminate. Qed.

Lemma appends_keeps_quiet {A} (m : M A) st r st' :
  appends (fun e => e <> encoder_ok) m ->
  encoder_ok ∉ log st -> m st = (r, st') -> encoder_ok ∉ log st'.
Proof.
  intros Hm Hst E. destruct (Hm _ _ _ E) as (l & -> & Hl).
  rewrite elem_of_app. intros [?|Hin]; [done|].
  rewrite Forall_forall in Hl. now apply (Hl _ Hin).
Qed.

Lemma after_encoder_bind {A B} (m : M A) (k : A -> M B) Q :
  appends (fun e => e <> encoder_ok) m ->
  (forall a, after_encoder (k a) Q) -> after_encoder (bind m k) Q.
Proof.
  intros Hm Hk st r st' Hst H Hin.
  apply bind_inv in H as [(e & H & ->) | (a & st1 & H1 & H2)].
  - exfalso. exact (appends_keeps_quiet _ _ _ _ Hm Hst H Hin).
  - exact (Hk a _ _ _ (appends_keeps_quiet _ _ _ _ Hm Hst H1) H2 Hin).
Qed.

Lemma appends_tts_edge P text voice out_wav :
  passive P -> (forall status, P (EvSubprocess (tts_cmd text voice out_wav) status)) ->
  appends P (tts_edge W text voice out_wav).
Proof.
  intros HP Hc. unfold tts_edge. apply appends_bind.
  - now apply appends_mkdir.
  - intros _. apply appends_run; auto. apply HP.
Qed.

(** The encoder and the final check. *)
Lemma after_encoder_check (sm : summary) :
  output sm = path_str final_mp4 ->
  after_encoder
    (bind (run W ffmpeg_cmd) (fun _ =>
     bind (stat final_mp4) (fun size =>
       match size with
       | None => raise output_invalid
       | Some n =>
           if n <? 10000 then raise output_invalid
           else bind (print "✅ DONE") (fun _ => ret sm)
       end)))
    validated.
Proof.
  intros Hsm st r st' Hst H Hin.
  unfold bind, run in H.
  destruct (subprocess_run W ffmpeg_cmd (fs st)) as [e|p].
  { injection H as <- <-. simpl in Hin.
    apply elem_of_app in Hin as [?|Hin]; [done|].
    apply list_elem_of_singleton in Hin. discriminate. }
  destruct (returncode p =? 0) eqn:R.
  - unfold stat in H. cbn [fs] in H. unfold validated.
    destruct (files_after p !! path_str final_mp4) as [n|] eqn:F.
    + destruct (n <? 10000) eqn:L.
      * injection H as <- <-. cbn [fs]. rewrite F.
        destruct (10000 <=? n) eqn:L'; [lia | reflexivity].
      * injection H as <- <-. cbn [fs]. rewrite F.
        destruct (10000 <=? n) eqn:L'; [eauto | lia].
    + injection H as <- <-. cbn [fs]. now rewrite F.
  - injection H as <- <-. simpl in Hin.
    apply elem_of_app in Hin as [?|Hin]; [done|].
    apply elem_of_cons in Hin as [Hin|Hin].
    + injection Hin as Hrc. lia.
    + apply list_elem_of_singleton in Hin. discriminate.
Qed.

Lemma main_after_encoder : after_encoder (main W) validated.
Proof.
  pose proof passive_not_encoder as HP.
  unfold main. cbv zeta.
  destruct (negb _).
  { intros st r st' Hst [= <- <-] Hin. done. }
  apply after_encoder_bind; [now apply appends_mkdir | intros _].
  apply after_encoder_bind; [now apply appends_print | intros _].
  apply after_encoder_bind;
    [apply appends_tts_edge; auto using tts_cmd_not_encoder | intros _].
  apply after_encoder_bind; [apply appends_pick_provider | intros chosen].
  apply after_encoder_bind; [now apply appends_print | intros _].
  apply after_encoder_bind.
  { destruct (String.eqb chosen "PEXELS");
      [now apply appends_fetch_pexels_video | now apply appends_fetch_pixabay_video]. }
  intros video_url.
  apply after_encoder_bind; [now apply appends_print | intros _].
  apply after_encoder_bind; [now apply appends_download_file | intros _].
  apply after_encoder_bind; [now apply appends_print | intros _].
  now apply after_encoder_check.
Qed.

End Driver.

(** C1, as it holds on the code.  In every run in which the encoder was
    invoked and exited with status 0, the pipeline raises the output
    validation error ([RuntimeError] "final.mp4 not created or too small.")
    unless the final file exists and has at least 10,000 bytes, in which case
    it succeeds; in particular it fails when the file is absent or empty. *)
Theorem main_validates_output (W : world) (files : gmap string Z)
    (r : exn + summary) (st' : state) :
  run_main W files = (r, st') ->
  encoder_ok ∈ log st' ->
  (forall n, fs st' !! "out/final.mp4" = Some n -> 10000 <= n ->
     exists s, r = inr s /\ output s = "out/final.mp4")
  /\ (forall n, fs st' !! "out/final.mp4" = Some n -> n < 10000 ->
        r = inl (RuntimeError "final.mp4 not created or too small."))
  /\ (fs st' !! "out/final.mp4" = None ->
        r = inl (RuntimeError "final.mp4 not created or too small.")).
Proof.
  intros Hrun Hin.
  assert (Hv : validated r st').
  { eapply (main_after_encoder W); eauto. cbn. apply not_elem_of_nil. }
  unfold validated in Hv. change (path_str final_mp4) with "out/final.mp4" in Hv.
  repeat split.
  - intros n Hn Hle. rewrite Hn in Hv.
    destruct (10000 <=? n) eqn:L; [done | lia].
  - intros n Hn Hlt. rewrite Hn in Hv.
    destruct (10000 <=? n) eqn:L; [lia | done].
  - intros Hn. now rewrite Hn in Hv.
Qed.

Lemma main_validates_output_witness :
  (run_main (Scenario.studio Scenario.vars (Some 0) 0) ∅).1
    = inl (RuntimeError "final.mp4 not created or too small.")
  /\ (run_main (Scenario.studio Scenario.vars None 0) ∅).1
    = inl (RuntimeError "final.mp4 not created or too small.").
Proof.
  split.
  - refine (proj1 (proj2 (main_validates_output
        (Scenario.studio Scenario.vars (Some 0) 0) ∅ _ _ (surjective_pairing _) _)) 0 _ _).
    + vm_compute. repeat first [apply list_elem_of_here | apply list_elem_of_further].
    + vm_compute. reflexivity.
    + lia.
  - refine (proj2 (proj2 (main_validates_output
        (Scenario.studio Scenario.vars None 0) ∅ _ _ (surjective_pairing _) _)) _).
    + vm_compute. repeat first [apply list_elem_of_here | apply list_elem_of_further].
    + vm_compute. reflexivity.
Defined.

(** C1 as stated fails at the floor itself: a final file of exactly 10,000
    bytes does not exceed 10,000 bytes, and the run succeeds. *)
Lemma main_accepts_floor :
  let run := run_main (Scenario.studio Scenario.vars (Some 10000) 0) ∅ in
  encoder_ok ∈ log run.2
  /\ fs run.2 !! "out/final.mp4" = Some 10000
  /\ ~ (10000 < 10000)
  /\ run.1 = inr {| job_id := "job_1700000000"; topic := "trend";
                    provider := "PEXELS"; voice := "en-US-AriaNeural";
                    output := "out/final.mp4" |}.
Proof.
  cbv zeta. repeat split.
  - vm_compute. repeat first [apply list_elem_of_here | apply list_elem_of_further].
  - lia.
Qed.

(** ** The driver: the script gate *)

Ltac effects HP :=
  repeat first
    [ apply appends_download_file; exact HP
    | apply appends_fetch_pexels_video; exact HP
    | apply appends_fetch_pixabay_video; exact HP
    | apply appends_pick_provider
    | apply appends_print; exact HP | apply appends_mkdir; exact HP
    | apply appends_run; [intros ?; try discriminate; exact I | apply HP]
    | apply appends_ret | apply appends_raise | apply appends_stat
    | apply appends_lift_api | apply appends_raise_for_status
    | apply appends_json | apply appends_random_choice
    | apply appends_write_chunks
    | apply appends_bind; [|intros ?]
    | match goal with
      | |- appends _ (match ?x with _ => _ end) => destruct x
      end ].

Section Gate.
Import PyStr PyStrFacts.

Lemma truthy_rstrip_cons c s :
  isspace c = false -> truthy (rstrip (String c s)) = true.
Proof.
  intros E. rewrite rstrip_cons.
  destruct (truthy (rstrip s)); auto. now rewrite E.
Qed.

(** [s.strip()] is falsy exactly when [s] is empty or all whitespace. *)
Lemma truthy_strip s : truthy (strip s) = negb (all isspace s).
Proof.
  unfold strip. induction s as [|c s IH]; auto.
  cbn [lstrip all]. destruct (isspace c) eqn:E; auto.
  now apply truthy_rstrip_cons.
Qed.

Lemma bind_emit {A} e (k : unit -> M A) st :
  bind (emit e) k st =
    k tt {| fs := fs st; draws := draws st; log := log st ++ [e] |}.
Proof. reflexivity. Qed.

Lemma bind_assoc {A B C} (m : M A) (f : A -> M B) (g : B -> M C) st :
  bind (bind m f) g st = bind m (fun a => bind (f a) g) st.
Proof. unfold bind. now destruct (m st) as [[e|a] st1]. Qed.

Lemma run_log W cmd st r st' :
  run W cmd st = (r, st') ->
  exists status later, log st' = log st ++ EvSubprocess cmd status :: later.
Proof.
  unfold run. destruct (subprocess_run W cmd (fs st)) as [e|p].
  - intros [= <- <-]. now exists None, [].
  - intros H. exists (Some (returncode p)), [EvPrint (stdout p)].
    destruct (returncode p =? 0); now injection H as <- <-.
Qed.

End Gate.

(** C2.  When the script text is empty or only whitespace, the run raises the
    configuration error ([RuntimeError] "SCRIPT is empty. ...") and its log is
    empty: no subprocess was started and no request was sent.  Otherwise the
    first external call of the run is the synthesizer, started with exactly
    the script text and the configured voice. *)
Theorem main_script_gate (W : world) (files : gmap string Z) :
  let script := env (environ W) "SCRIPT" "" in
  let voice := env (environ W) "VOICE" "en-US-AriaNeural" in
  (PyStr.all PyStr.isspace script = true ->
     (run_main W files).1
       = inl (RuntimeError "SCRIPT is empty. Pass script input from n8n.")
     /\ log (run_main W files).2 = [])
  /\ (PyStr.all PyStr.isspace script = false ->
      exists status later,
        log (run_main W files).2 =
          [EvMkdir "out"; EvPrint ("[TTS] voice=" +:+ voice); EvMkdir "out";
           EvSubprocess ["edge-tts"; "--voice"; voice; "--text"; script;
                         "--write-media"; "out/voice.wav"] status]
          ++ later).
Proof.
  cbv zeta. split; intros Hs.
  - unfold run_main, main. cbv zeta. rewrite truthy_strip, Hs. now split.
  - destruct (run_main W files) as [r st'] eqn:E.
    unfold run_main, main in E. cbv zeta in E.
    rewrite truthy_strip, Hs in E. cbn [negb] in E.
    unfold mkdir at 1, print at 1, tts_edge, mkdir in E.
    rewrite !bind_emit, bind_assoc, bind_emit in E.
    cbn [snd].
    apply bind_inv in E as [(e & H & ->) | ([] & st1 & H1 & H2)].
    + apply run_log in H as (status & later & ->). now exists status, later.
    + apply run_log in H1 as (status & later & H1).
      assert (HK : exists l, log st' = log st1 ++ l /\ Forall (fun _ => True) l).
      { pose proof passive_any as HP. revert H2.
        match goal with |- ?m st1 = _ -> _ => enough (appends (fun _ => True) m) by eauto end.
        effects HP. }
      destruct HK as (l & -> & _). rewrite H1.
      exists status, (later ++ l). cbn. reflexivity.
Qed.

Lemma main_script_gate_witness :
  ((run_main (Scenario.studio (<["SCRIPT" := "  "]> Scenario.vars) None 0) ∅).1
     = inl (RuntimeError "SCRIPT is empty. Pass script input from n8n.")
   /\ log (run_main (Scenario.studio (<["SCRIPT" := "  "]> Scenario.vars) None 0) ∅).2 = [])
  /\ exists status later,
       log (run_main (Scenario.studio Scenario.vars (Some 20000) 0) ∅).2 =
         [EvMkdir "out"; EvPrint "[TTS] voice=en-US-AriaNeural"; EvMkdir "out";
          EvSubprocess ["edge-tts"; "--voice"; "en-US-AriaNeural"; "--text";
                        "Hello there"; "--write-media"; "out/voice.wav"] status]
         ++ later.
Proof.
  split.
  - apply (proj1 (main_script_gate
      (Scenario.studio (<["SCRIPT" := "  "]> Scenario.vars) None 0) ∅)).
    reflexivity.
  - apply (proj2 (main_script_gate (Scenario.studio Scenario.vars (Some 20000) 0) ∅)).
    reflexivity.
Defined.

(** ** Provider selection *)

Lemma random_choice_two W a b st :
  random_choice W [a; b] st =
    (inr (match (random_draw W (draws st) mod 2)%nat with O => a | _ => b end),
     {| fs := fs st; draws := S (draws st); log := log st |}).
Proof.
  unfold random_choice. cbn [length].
  pose proof (Nat.mod_upper_bound (random_draw W (draws st)) 2) as Hlt.
  destruct (random_draw W (draws st) mod 2)%nat as [|[|n]]; try reflexivity.
  lia.
Qed.




(** ** Configuration reader *)

(** C9.  A variable set to the empty string reads like an unset one, as the
    default; a non-empty value is returned unchanged; so PROVIDER set to the
    empty string reads as BOTH. *)
Theorem env_empty_is_unset (environ : gmap string string) (name default v : string) :
  (environ !! name = None \/ environ !! name = Some "" ->
     env environ name default = default)
  /\ (environ !! name = Some v -> v <> "" -> env environ name default = v)
  /\ env (<["PROVIDER" := ""]> environ) "PROVIDER" "BOTH" = "BOTH"
  /\ env (delete "PROVIDER" environ) "PROVIDER" "BOTH" = "BOTH".
Proof.
  unfold env. repeat split.
  - now intros [-> | ->].
  - intros -> Hv. now destruct v.
  - now rewrite lookup_insert_eq.
  - now rewrite lookup_delete_eq.
Qed.

Lemma env_empty_is_unset_witness :
  env (<["VOICE" := ""]> ∅) "VOICE" "en-US-AriaNeural" = "en-US-AriaNeural"
  /\ env (<["VOICE" := "en-GB-SoniaNeural"]> ∅) "VOICE" "en-US-AriaNeural"
       = "en-GB-SoniaNeural".
Proof.
  split.
  - apply (proj1 (env_empty_is_unset (<["VOICE" := ""]> ∅) "VOICE" "en-US-AriaNeural" "")).
    right. reflexivity.
  - apply (proj1 (proj2 (env_empty_is_unset (<["VOICE" := "en-GB-SoniaNeural"]> ∅)
                           "VOICE" "en-US-AriaNeural" "en-GB-SoniaNeural"))).
    + reflexivity.
    + discriminate.
Defined.

(** ** Credentials *)

(** C7.  With an empty API key either fetch raises the credential error
    ([RuntimeError] "..._API_KEY is missing in GitHub Secrets.") and leaves the
    state, hence the log, as it was: no request is sent. *)
Theorem fetch_without_key (W : world) (query : string) (st : state) :
  fetch_pexels_video W query "" st
    = (inl (RuntimeError "PEXELS_API_KEY is missing in GitHub Secrets."), st)
  /\ fetch_pixabay_video W query "" st
    = (inl (RuntimeError "PIXABAY_API_KEY is missing in GitHub Secrets."), st).
Proof. split; reflexivity. Qed.

(** With a key the request is sent first, whatever comes back. *)
Lemma fetch_with_key_requests (W : world) (query key : string) (st : state) :
  key <> "" ->
  (exists later, log (fetch_pexels_video W query key st).2
     = log st ++ EvHttpGet "https://api.pexels.com/videos/search"
                   [("Authorization", key)]
                   [("query", query); ("per_page", "10"); ("orientation", "portrait")]
                 :: later)
  /\ (exists later, log (fetch_pixabay_video W query key st).2
     = log st ++ EvHttpGet "https://pixabay.com/api/videos/" []
                   [("key", key); ("q", query); ("per_page", "10")]
                 :: later).
Proof.
  intros Hk. destruct key as [|c key]; [done|].
  pose proof passive_any as HP.
  split.
  - unfold fetch_pexels_video. cbn [PyStr.truthy negb]. rewrite bind_emit.
    match goal with |- context [log (?m ?s).2] =>
      assert (H : appends (fun _ => True) m) by effects HP;
      destruct (m s) as [r st'] eqn:E; cbn [snd];
      destruct (H _ _ _ E) as (l & -> & _)
    end.
    exists l. cbn. now rewrite <- app_assoc.
  - unfold fetch_pixabay_video. cbn [PyStr.truthy negb]. rewrite bind_emit.
    match goal with |- context [log (?m ?s).2] =>
      assert (H : appends (fun _ => True) m) by effects HP;
      destruct (m s) as [r st'] eqn:E; cbn [snd];
      destruct (H _ _ _ E) as (l & -> & _)
    end.
    exists l. cbn. now rewrite <- app_assoc.
Qed.

(** ** Candidate selection *)

Section Candidates.
Variable W : world.

Lemma truthy_ne s : PyStr.truthy s = true <-> s <> "".
Proof. destruct s; simpl; split; congruence. Qed.





Lemma elem_of_pexels_links keep videos l :
  l ∈ pexels_links keep videos <-> pexels_variant videos keep l.
Proof.
  unfold pexels_links, pexels_variant. rewrite list_elem_of_bind. split.
  - intros (v & Hl & Hv). apply list_elem_of_bind in Hl as (f & Hl & Hf).
    destruct (Pexels.link f) as [l'|] eqn:E; [|now apply elem_of_nil in Hl].
    destruct (PyStr.truthy l' && keep f) eqn:T; [|now apply elem_of_nil in Hl].
    apply list_elem_of_singleton in Hl as ->.
    apply andb_prop in T as [T1 T2]. apply truthy_ne in T1.
    exists v, f. auto.
  - intros (v & f & Hv & Hf & E & Hl & Hk).
    exists v. split; [|done]. apply list_elem_of_bind. exists f. split; [|done].
    apply truthy_ne in Hl. rewrite E, Hl, Hk. apply list_elem_of_here.
Qed.




Lemma not_nil_elem_of {A} (l : list A) : l <> [] -> exists x, x ∈ l.
Proof. destruct l as [|x l]; [done|]. exists x. apply list_elem_of_here. Qed.



End Candidates.






(** ** Provider B: quality tiers *)

Section Tiers.
Variable vids : gmap string Pixabay.tier.

Lemma first_tier_url_cons k ks :
  (exists u, usable vids k u /\ first_tier_url vids (k :: ks) = [u])
  \/ ((forall u, ~ usable vids k u)
      /\ first_tier_url vids (k :: ks) = first_tier_url vids ks).
Proof.
  cbn [first_tier_url]. unfold usable.
  destruct (vids !! k) as [t|] eqn:E.
  - destruct (Pixabay.url t) as [u|] eqn:F.
    + destruct (PyStr.truthy u) eqn:T.
      * left. exists u. split; [|done]. exists t. now rewrite <- truthy_ne.
      * right. split; [|done]. intros u' (t' & [= <-] & Hu & Hne).
        rewrite F in Hu. injection Hu as <-.
        apply truthy_ne in Hne. congruence.
    + right. split; [|done]. intros u' (t' & [= <-] & Hu & _). congruence.
  - right. split; [|done]. intros u' (t' & ? & _). congruence.
Qed.

Lemma usable_inj k u u' : usable vids k u -> usable vids k u' -> u = u'.
Proof. intros (t & E & F & _) (t' & E' & F' & _). congruence. Qed.

Lemma first_tier_url_spec ks u :
  first_tier_url vids ks = [u] <->
  exists before k after,
    ks = before ++ k :: after /\ usable vids k u
    /\ forall k' u', k' ∈ before -> ~ usable vids k' u'.
Proof.
  induction ks as [|k ks IH].
  - split; [discriminate|]. intros (b & k & a & E & _). now destruct b.
  - destruct (first_tier_url_cons k ks) as [(u0 & Hu0 & ->) | (Hno & ->)].
    + split.
      * intros [= ->]. exists [], k, ks. repeat split; auto.
        intros k' u' H. now apply elem_of_nil in H.
      * intros (b & k0 & a & E & Hu & Hb). f_equal.
        destruct b as [|k1 b].
        -- injection E as <- <-. eapply usable_inj; eauto.
        -- injection E as <- _.
           destruct (Hb k u0); [apply list_elem_of_here | done].
    + rewrite IH. split.
      * intros (b & k0 & a & -> & Hu & Hb). exists (k :: b), k0, a.
        repeat split; auto.
        intros k' u' [->|H]%elem_of_cons; [apply Hno | now apply Hb].
      * intros (b & k0 & a & E & Hu & Hb).
        destruct b as [|k1 b].
        -- injection E as <- <-. now destruct (Hno u).
        -- injection E as <- ->. exists b, k0, a. repeat split; auto.
           intros k' u' H. apply Hb. now apply list_elem_of_further.
Qed.

Lemma first_tier_url_nil ks :
  first_tier_url vids ks = [] <-> forall k u, k ∈ ks -> ~ usable vids k u.
Proof.
  induction ks as [|k ks IH].
  - split; [|done]. intros _ k u H. now apply elem_of_nil in H.
  - destruct (first_tier_url_cons k ks) as [(u0 & Hu0 & ->) | (Hno & ->)].
    + split; [discriminate|]. intros H.
      destruct (H k u0); [apply list_elem_of_here | done].
    + rewrite IH. split.
      * intros H k' u' [->|Hin]%elem_of_cons; [apply Hno | now apply H].
      * intros H k' u' Hin. apply H. now apply list_elem_of_further.
Qed.

Lemma first_tier_url_length ks : (length (first_tier_url vids ks) <= 1)%nat.
Proof.
  induction ks as [|k ks IH]; [simpl; lia|].
  destruct (first_tier_url_cons k ks) as [(u0 & _ & ->) | (_ & ->)];
    [simpl; lia | done].
Qed.

End Tiers.

Lemma pixabay_candidates_cons h hits :
  pixabay_candidates (h :: hits) =
    first_tier_url (default ∅ (Pixabay.videos h)) tiers ++ pixabay_candidates hits.
Proof. reflexivity. Qed.

Lemma pixabay_candidates_length hits :
  (length (pixabay_candidates hits) <= length hits)%nat.
Proof.
  induction hits as [|h hits IH]; [simpl; lia|].
  rewrite pixabay_candidates_cons, length_app. cbn [length].
  pose proof (first_tier_url_length (default ∅ (Pixabay.videos h)) tiers). lia.
Qed.

(** C5, as it holds on the code.  For every hit the tiers are tried in the
    order large, medium, small, tiny, and the hit contributes the url of the
    first tier that is present with a non-empty url, and nothing when there is
    no such tier; so a hit contributes at most one candidate. *)
Theorem pixabay_first_usable_tier (h : Pixabay.hit) (hits : list Pixabay.hit) (u : string) :
  let vids := default ∅ (Pixabay.videos h) in
  let contributed := first_tier_url vids tiers in
  (contributed = [u] <->
     exists before k after,
       ["large"; "medium"; "small"; "tiny"] = before ++ k :: after
       /\ usable vids k u
       /\ forall k' u', k' ∈ before -> ~ usable vids k' u')
  /\ (contributed = [] <-> forall k u', k ∈ tiers -> ~ usable vids k u')
  /\ (length contributed <= 1)%nat
  /\ pixabay_candidates (h :: hits) = contributed ++ pixabay_candidates hits
  /\ (length (pixabay_candidates hits) <= length hits)%nat.
Proof.
  cbv zeta. repeat split.
  - now apply first_tier_url_spec.
  - now apply first_tier_url_spec.
  - now apply first_tier_url_nil.
  - now apply first_tier_url_nil.
  - apply first_tier_url_length.
  - apply pixabay_candidates_length.
Qed.

Lemma pixabay_first_usable_tier_witness :
  first_tier_url Scenario.medium_only tiers = ["https://cdn.example/medium.mp4"].
Proof.
  apply (proj1 (pixabay_first_usable_tier
                  {| Pixabay.videos := Some Scenario.medium_only |} []
                  "https://cdn.example/medium.mp4")).
  exists ["large"], "medium", ["small"; "tiny"]. split; [reflexivity|]. split.
  - exists {| Pixabay.url := Some "https://cdn.example/medium.mp4" |}.
    repeat split. discriminate.
  - intros k' u' Hk (t & Ht & Hu & Hne).
    apply list_elem_of_singleton in Hk as ->.
    vm_compute in Ht. injection Ht as <-. cbn in Hu. congruence.
Defined.

(** C5 as stated fails: the first tier present in this hit is large, with an
    empty url, and the candidate taken is the url of medium. *)
Lemma pixabay_skips_empty_tier :
  first_present Scenario.medium_only tiers = Some "large"
  /\ Scenario.medium_only !! "large" = Some {| Pixabay.url := Some "" |}
  /\ Scenario.medium_only !! "medium"
       = Some {| Pixabay.url := Some "https://cdn.example/medium.mp4" |}
  /\ pixabay_candidates [ {| Pixabay.videos := Some Scenario.medium_only |} ]
       = ["https://cdn.example/medium.mp4"].
Proof. repeat split. Qed.

(** ** The outcomes of a search *)

Section Outcomes.
Variable W : world.

Lemma pexels_candidates_any videos u :
  u ∈ pexels_candidates videos -> pexels_variant videos any_file u.
Proof.
  unfold pexels_candidates.
  destruct (pexels_links portraitish videos) as [|x l] eqn:E.
  - apply elem_of_pexels_links.
  - rewrite <- E. intros (v & f & ? & ? & ? & ? & _)%elem_of_pexels_links.
    exists v, f. auto.
Qed.



Lemma first_tier_url_elem vids ks u :
  u ∈ first_tier_url vids ks -> exists k, k ∈ ks /\ usable vids k u.
Proof.
  induction ks as [|k ks IH]; [now intros ?%elem_of_nil|].
  destruct (first_tier_url_cons vids k ks) as [(u0 & Hu0 & ->) | (_ & ->)].
  - intros ->%list_elem_of_singleton. exists k. split; [apply list_elem_of_here | done].
  - intros (k' & Hk' & Hu)%IH. exists k'. split; [now apply list_elem_of_further | done].
Qed.

Lemma pixabay_candidates_elem hits u :
  u ∈ pixabay_candidates hits -> pixabay_variant hits u.
Proof.
  unfold pixabay_candidates. intros (h & Hu & Hh)%list_elem_of_bind.
  apply first_tier_url_elem in Hu as (k & Hk & Hu). now exists h, k.
Qed.




End Outcomes.



(** * Further properties of the code *)

(** ** The sanitizer's results *)

(** X1.  Whatever the maximum length, a sanitized string is not empty, has only
    characters of [[a-zA-Z0-9 _-]] and no whitespace at either end; for a
    maximum that is not negative it is no longer than the maximum, or than
    the 5 characters of the fallback. *)
Theorem safe_filename_shape (s : string) (max_len : Z) :
  safe_filename s max_len <> ""
  /\ PyStr.all PyStr.allowed (safe_filename s max_len) = true
  /\ PyStr.strip (safe_filename s max_len) = safe_filename s max_len
  /\ (0 <= max_len ->
      Z.of_nat (String.length (safe_filename s max_len)) <= Z.max max_len 5).
Proof.
  unfold safe_filename. cbv zeta.
  set (c := PyStr.strip (PyStr.slice_to max_len _)).
  assert (Ha : PyStr.all PyStr.allowed c = true).
  { apply PyStrFacts.all_strip, PyStrFacts.all_slice_to, PyStrFacts.all_sub_disallowed. }
  assert (Hs : PyStr.strip c = c) by apply PyStrFacts.strip_strip.
  unfold PyStr.or_else. destruct (PyStr.truthy c) eqn:T.
  - repeat split; auto.
    + now apply truthy_ne.
    + intros Hn. subst c.
      match goal with |- context [PyStr.slice_to max_len ?x] =>
        pose proof (PyStrFacts.length_strip (PyStr.slice_to max_len x));
        pose proof (PyStrFacts.length_slice_to max_len x Hn)
      end. lia.
  - repeat split; try discriminate. intros _. simpl. lia.
Qed.

Lemma safe_filename_shape_witness :
  Z.of_nat (String.length (safe_filename "a topic that is far too long" 10)) <= Z.max 10 5.
Proof.
  apply (proj2 (proj2 (proj2 (safe_filename_shape "a topic that is far too long" 10)))).
  lia.
Defined.

(** X2.  For a maximum length of at least 5 the strings that sanitization returns
    unchanged are exactly the non-empty strings of allowed characters, without
    whitespace at either end, without two adjacent spaces, and no longer than
    the maximum. *)
Theorem safe_filename_fixpoints (r : string) (max_len : Z) :
  5 <= max_len ->
  (safe_filename r max_len = r <->
     r <> ""
     /\ PyStr.all PyStr.allowed r = true
     /\ PyStr.strip r = r
     /\ PyStr.no_double_space r = true
     /\ Z.of_nat (String.length r) <= max_len).
Proof.
  intros Hn. split.
  - intros E. destruct (safe_filename_clean r max_len Hn) as [H1 H2 H3 H4].
    pose proof (safe_filename_nds r max_len) as H5.
    rewrite E in H1, H2, H3, H4, H5.
    repeat split; auto. now apply truthy_ne.
  - intros (H1 & H2 & H3 & H4 & H5).
    apply safe_filename_fixed; [|done]. split; auto. now apply truthy_ne.
Qed.

Lemma safe_filename_fixpoints_witness :
  safe_filename "city lights_2-a" 60 = "city lights_2-a".
Proof.
  refine (proj2 (safe_filename_fixpoints "city lights_2-a" 60 _) _); [lia|].
  repeat split; [discriminate | cbn; lia].
Defined.

(** X3.  For a maximum length of at least 5 a second sanitization always reaches a
    string that further sanitization leaves unchanged. *)
Theorem safe_filename_settles (s : string) (max_len : Z) :
  5 <= max_len ->
  safe_filename (safe_filename (safe_filename s max_len) max_len) max_len
    = safe_filename (safe_filename s max_len) max_len.
Proof.
  intros Hn. apply safe_filename_fixed.
  - now apply safe_filename_clean.
  - apply safe_filename_nds.
    apply (clean_allowed max_len), safe_filename_clean, Hn.
Qed.

Lemma safe_filename_settles_witness :
  safe_filename (safe_filename (safe_filename "a ! b" 60) 60) 60
    = safe_filename (safe_filename "a ! b" 60) 60.
Proof. apply (safe_filename_settles "a ! b" 60). lia. Defined.

(** ** Provider selection never fails *)

(** X4.  Whatever the preference and the random source, provider selection returns
    PEXELS or PIXABAY (it never raises), touches neither the files nor the
    log, and draws at most one random number. *)
Theorem pick_provider_total (W : world) (preference : string) (st : state) :
  exists p,
    (pick_provider W preference st).1 = inr p
    /\ (p = "PEXELS" \/ p = "PIXABAY")
    /\ fs (pick_provider W preference st).2 = fs st
    /\ log (pick_provider W preference st).2 = log st
    /\ (draws (pick_provider W preference st).2 <= S (draws st))%nat.
Proof.
  unfold pick_provider. cbv zeta.
  set (p := PyStr.strip _).
  destruct (bool_decide (p ∈ providers)) eqn:E.
  - apply bool_decide_eq_true_1 in E. exists p. cbn.
    repeat split; auto.
    unfold providers in E. rewrite !elem_of_cons, elem_of_nil in E. tauto.
  - unfold providers. rewrite random_choice_two.
    generalize (random_draw W (draws st) mod 2)%nat as i. intros i. cbn.
    destruct i; eexists; (split; [reflexivity|]);
      (split; [first [left; reflexivity | right; reflexivity]|]);
      repeat split; lia.
Qed.

(** ** Downloads *)

Lemma length_append_str (a b : string) :
  String.length (a +:+ b) = (String.length a + String.length b)%nat.
Proof. induction a as [|c a IH]; simpl; auto. Qed.

Lemma length_concat_cons (c : string) (l : list string) :
  String.length (String.concat "" (c :: l))
    = (String.length c + String.length (String.concat "" l))%nat.
Proof.
  destruct l as [|d l]; [simpl; lia|].
  change (String.concat "" (c :: d :: l))
    with (c +:+ "" +:+ String.concat "" (d :: l)).
  now rewrite !length_append_str.
Qed.

(** The bytes written are those of all the chunks: skipping the empty ones
    changes nothing. *)
Lemma written_size (chunks : list string) (n : Z) :
  fold_left (fun n c => n + Z.of_nat (String.length c))
            (filter (fun c => PyStr.truthy c = true) chunks) n
    = n + Z.of_nat (String.length (String.concat "" chunks)).
Proof.
  revert n. induction chunks as [|c l IH]; intros n; [simpl; lia|].
  rewrite filter_cons, length_concat_cons.
  destruct (decide (PyStr.truthy c = true)) as [T|T].
  - cbn [fold_left]. rewrite IH. lia.
  - rewrite IH. destruct c; [simpl; lia | done].
Qed.

Lemma raise_for_status_error {A} status (k : unit -> M A) st :
  400 <= status < 600 ->
  bind (raise_for_status status) k st = (inl (HTTPError status), st).
Proof.
  intros H. unfold raise_for_status.
  destruct (_ && _) eqn:E; [reflexivity|].
  apply andb_false_iff in E as [E|E]; lia.
Qed.

(** What a download does, by what the server answers. *)
Lemma download_file_cases W url out_path st :
  let st1 := {| fs := fs st; draws := draws st;
                log := log st ++ [EvMkdir (path_str (path_parent out_path));
                                  EvHttpGet url [] []] |} in
  download_file W url out_path st =
    match download_api W url with
    | inl e => (inl e, st1)
    | inr r =>
        if (400 <=? status_code r) && (status_code r <? 600)
        then (inl (HTTPError (status_code r)), st1)
        else write_chunks out_path (content r) st1
    end.
Proof.
  cbv zeta. unfold download_file, mkdir.
  rewrite !bind_emit. unfold bind at 1, lift_api. cbn [fs draws log].
  rewrite <- app_assoc. cbn [app].
  destruct (download_api W url) as [e|r]; [reflexivity|].
  unfold bind, raise_for_status. now destruct (_ && _).
Qed.







(** ** Searches *)

Lemma status_cases (status : Z) : status_ok status \/ 400 <= status < 600.
Proof. unfold status_ok. lia. Qed.

Lemma random_choice_frame W seq st :
  fs (random_choice W seq st).2 = fs st
  /\ log (random_choice W seq st).2 = log st
  /\ (draws (random_choice W seq st).2 <= S (draws st))%nat.
Proof. unfold random_choice. destruct (seq !! _); cbn; repeat split; lia. Qed.

Lemma pexels_select_frame W videos st :
  fs (pexels_select W videos st).2 = fs st
  /\ log (pexels_select W videos st).2 = log st
  /\ (draws (pexels_select W videos st).2 <= S (draws st))%nat.
Proof.
  unfold pexels_select. destruct videos; [cbn; repeat split; lia|].
  destruct (pexels_candidates _); [cbn; repeat split; lia|].
  apply random_choice_frame.
Qed.

Lemma pixabay_select_frame W hits st :
  fs (pixabay_select W hits st).2 = fs st
  /\ log (pixabay_select W hits st).2 = log st
  /\ (draws (pixabay_select W hits st).2 <= S (draws st))%nat.
Proof.
  unfold pixabay_select. destruct hits; [cbn; repeat split; lia|].
  destruct (pixabay_candidates _); [cbn; repeat split; lia|].
  apply random_choice_frame.
Qed.

(** What a fetch with a key does before it looks at the results. *)
Lemma fetch_pexels_video_cases W query key st :
  key <> "" ->
  let st1 := requested (EvHttpGet "https://api.pexels.com/videos/search"
                          [("Authorization", key)]
                          [("query", query); ("per_page", "10");
                           ("orientation", "portrait")]) st in
  fetch_pexels_video W query key st =
    match pexels_api W query key with
    | inl e => (inl e, st1)
    | inr r =>
        if (400 <=? status_code r) && (status_code r <? 600)
        then (inl (HTTPError (status_code r)), st1)
        else match content r with
             | None => (inl (RequestException "JSONDecodeError"), st1)
             | Some data => pexels_select W (default [] (Pexels.videos data)) st1
             end
    end.
Proof.
  intros Hk. cbv zeta. unfold fetch_pexels_video.
  apply truthy_ne in Hk. rewrite Hk. cbn [negb].
  rewrite bind_emit. unfold bind at 1, lift_api.
  destruct (pexels_api W query key) as [e|r]; [reflexivity|].
  unfold bind at 1, raise_for_status.
  destruct (_ && _); [reflexivity|].
  unfold bind, json. now destruct (content r).
Qed.

Lemma fetch_pixabay_video_cases W query key st :
  key <> "" ->
  let st1 := requested (EvHttpGet "https://pixabay.com/api/videos/" []
                          [("key", key); ("q", query); ("per_page", "10")]) st in
  fetch_pixabay_video W query key st =
    match pixabay_api W query key with
    | inl e => (inl e, st1)
    | inr r =>
        if (400 <=? status_code r) && (status_code r <? 600)
        then (inl (HTTPError (status_code r)), st1)
        else match content r with
             | None => (inl (RequestException "JSONDecodeError"), st1)
             | Some data => pixabay_select W (default [] (Pixabay.hits data)) st1
             end
    end.
Proof.
  intros Hk. cbv zeta. unfold fetch_pixabay_video.
  apply truthy_ne in Hk. rewrite Hk. cbn [negb].
  rewrite bind_emit. unfold bind at 1, lift_api.
  destruct (pixabay_api W query key) as [e|r]; [reflexivity|].
  unfold bind at 1, raise_for_status.
  destruct (_ && _); [reflexivity|].
  unfold bind, json. now destruct (content r).
Qed.

(** X7.  With a key, either fetch sends exactly one request, whatever the answer:
    the log grows by that one event, the files are untouched, and at most one
    random number is drawn. *)
Theorem fetch_sends_one_request (W : world) (query key : string) (st : state) :
  key <> "" ->
  (log (fetch_pexels_video W query key st).2
     = log st ++ [EvHttpGet "https://api.pexels.com/videos/search"
                    [("Authorization", key)]
                    [("query", query); ("per_page", "10");
                     ("orientation", "portrait")]]
   /\ fs (fetch_pexels_video W query key st).2 = fs st
   /\ (draws (fetch_pexels_video W query key st).2 <= S (draws st))%nat)
  /\ (log (fetch_pixabay_video W query key st).2
        = log st ++ [EvHttpGet "https://pixabay.com/api/videos/" []
                       [("key", key); ("q", query); ("per_page", "10")]]
      /\ fs (fetch_pixabay_video W query key st).2 = fs st
      /\ (draws (fetch_pixabay_video W query key st).2 <= S (draws st))%nat).
Proof.
  intros Hk. split.
  - rewrite (fetch_pexels_video_cases W query key st Hk). cbv zeta.
    destruct (pexels_api W query key) as [e|r]; [cbn; repeat split; lia|].
    destruct (_ && _); [cbn; repeat split; lia|].
    destruct (content r); [|cbn; repeat split; lia].
    match goal with |- context [pexels_select W ?v ?s] =>
      destruct (pexels_select_frame W v s) as (F1 & F2 & F3)
    end.
    rewrite F1, F2. now repeat split.
  - rewrite (fetch_pixabay_video_cases W query key st Hk). cbv zeta.
    destruct (pixabay_api W query key) as [e|r]; [cbn; repeat split; lia|].
    destruct (_ && _); [cbn; repeat split; lia|].
    destruct (content r); [|cbn; repeat split; lia].
    match goal with |- context [pixabay_select W ?v ?s] =>
      destruct (pixabay_select_frame W v s) as (F1 & F2 & F3)
    end.
    rewrite F1, F2. now repeat split.
Qed.

Lemma fetch_sends_one_request_witness :
  log (fetch_pixabay_video
         (Faults.world_of ∅ (Faults.exits 0) Faults.offline Faults.offline
            Faults.offline 0)
         "trend" "secret" (initial ∅)).2
    = [EvHttpGet "https://pixabay.com/api/videos/" []
         [("key", "secret"); ("q", "trend"); ("per_page", "10")]].
Proof.
  refine (proj1 (proj2 (fetch_sends_one_request
            (Faults.world_of ∅ (Faults.exits 0) Faults.offline Faults.offline
               Faults.offline 0)
            "trend" "secret" (initial ∅) _))).
  discriminate.
Defined.

(** X8.  With a key, a search that cannot be made raises the transport error, one
    that is answered with a status in 400..599 raises [HTTPError] whatever the
    body, and one whose body is not JSON raises the decoding error; this is
    so for either provider. *)
Theorem fetch_transport_errors (W : world) (query key : string) (st : state) :
  key <> "" ->
  transport_outcome (pexels_api W query key) (fetch_pexels_video W query key st).1
  /\ transport_outcome (pixabay_api W query key) (fetch_pixabay_video W query key st).1.
Proof.
  intros Hk. split.
  - rewrite (fetch_pexels_video_cases W query key st Hk). cbv zeta.
    repeat split.
    + now intros e ->.
    + intros r -> Hs.
      destruct (_ && _) eqn:E; [reflexivity|].
      apply andb_false_iff in E as [E|E]; lia.
    + intros r -> Hs Hc. rewrite Hc.
      destruct (_ && _) eqn:E; [|reflexivity].
      apply andb_prop in E as [E1 E2]. unfold status_ok in Hs. lia.
  - rewrite (fetch_pixabay_video_cases W query key st Hk). cbv zeta.
    repeat split.
    + now intros e ->.
    + intros r -> Hs.
      destruct (_ && _) eqn:E; [reflexivity|].
      apply andb_false_iff in E as [E|E]; lia.
    + intros r -> Hs Hc. rewrite Hc.
      destruct (_ && _) eqn:E; [|reflexivity].
      apply andb_prop in E as [E1 E2]. unfold status_ok in Hs. lia.
Qed.

Lemma fetch_transport_errors_witness :
  (fetch_pexels_video
     (Faults.world_of ∅ (Faults.exits 0)
        (Faults.answer 429 (Scenario.pexels_of [Scenario.portrait]))
        Faults.offline Faults.offline 0)
     "trend" "secret" (initial ∅)).1 = inl (HTTPError 429).
Proof.
  refine (proj1 (proj2 (proj1 (fetch_transport_errors
            (Faults.world_of ∅ (Faults.exits 0)
               (Faults.answer 429 (Scenario.pexels_of [Scenario.portrait]))
               Faults.offline Faults.offline 0)
            "trend" "secret" (initial ∅) _)))
          {| status_code := 429; content := Scenario.pexels_of [Scenario.portrait] |}
          eq_refl _).
  - discriminate.
  - cbn. lia.
Defined.

Lemma random_choice_inr W (seq : list string) st x st' :
  random_choice W seq st = (inr x, st') -> x ∈ seq.
Proof.
  unfold random_choice. destruct (seq !! _) as [y|] eqn:E; [|discriminate].
  intros [= <- _]. eapply list_elem_of_lookup_2, E.
Qed.

Lemma pexels_select_inr W videos st url st' :
  pexels_select W videos st = (inr url, st') ->
  pexels_variant videos any_file url /\ fs st' = fs st /\ log st' = log st.
Proof.
  intros H. destruct (pexels_select_frame W videos st) as (F1 & F2 & _).
  rewrite H in F1, F2. split; [|done].
  unfold pexels_select in H. destruct videos as [|v vs]; [discriminate|].
  apply pexels_candidates_any.
  destruct (pexels_candidates (v :: vs)) as [|c cs] eqn:F; [discriminate|].
  eapply random_choice_inr, H.
Qed.

Lemma pixabay_select_inr W hits st url st' :
  pixabay_select W hits st = (inr url, st') ->
  pixabay_variant hits url /\ fs st' = fs st /\ log st' = log st.
Proof.
  intros H. destruct (pixabay_select_frame W hits st) as (F1 & F2 & _).
  rewrite H in F1, F2. split; [|done].
  unfold pixabay_select in H. destruct hits as [|h hs]; [discriminate|].
  apply pixabay_candidates_elem.
  destruct (pixabay_candidates (h :: hs)) as [|c cs] eqn:F; [discriminate|].
  eapply random_choice_inr, H.
Qed.

Lemma pexels_variant_ne videos keep url : pexels_variant videos keep url -> url <> "".
Proof. now intros (_ & _ & _ & _ & _ & ? & _). Qed.

Lemma pixabay_variant_ne hits url : pixabay_variant hits url -> url <> "".
Proof. now intros (_ & _ & _ & _ & _ & _ & _ & ?). Qed.

(** X9.  A URL that a fetch returns is never empty: a key was given, the search
    was answered with a decodable body and a status outside 400..599, and the
    URL is one of the extractable links of its results. *)
Theorem fetch_returns_link (W : world) (query key url : string) (st st' : state) :
  (fetch_pexels_video W query key st = (inr url, st') ->
     key <> "" /\ url <> ""
     /\ exists r data,
          pexels_api W query key = inr r /\ status_ok (status_code r)
          /\ content r = Some data
          /\ pexels_variant (default [] (Pexels.videos data)) any_file url)
  /\ (fetch_pixabay_video W query key st = (inr url, st') ->
     key <> "" /\ url <> ""
     /\ exists r data,
          pixabay_api W query key = inr r /\ status_ok (status_code r)
          /\ content r = Some data
          /\ pixabay_variant (default [] (Pixabay.hits data)) url).
Proof.
  split.
  - intros H.
    assert (Hk : key <> "") by (intros ->; discriminate).
    rewrite (fetch_pexels_video_cases W query key st Hk) in H. cbv zeta in H.
    destruct (pexels_api W query key) as [e|r]; [discriminate|].
    destruct (_ && _) eqn:E; [discriminate|].
    destruct (content r) as [data|] eqn:C; [|discriminate].
    apply pexels_select_inr in H as (Hv & _).
    split; [done|]. split; [eapply pexels_variant_ne, Hv|].
    exists r, data. repeat split; auto.
    apply andb_false_iff in E as [E|E]; unfold status_ok; lia.
  - intros H.
    assert (Hk : key <> "") by (intros ->; discriminate).
    rewrite (fetch_pixabay_video_cases W query key st Hk) in H. cbv zeta in H.
    destruct (pixabay_api W query key) as [e|r]; [discriminate|].
    destruct (_ && _) eqn:E; [discriminate|].
    destruct (content r) as [data|] eqn:C; [|discriminate].
    apply pixabay_select_inr in H as (Hv & _).
    split; [done|]. split; [eapply pixabay_variant_ne, Hv|].
    exists r, data. repeat split; auto.
    apply andb_false_iff in E as [E|E]; unfold status_ok; lia.
Qed.

Lemma fetch_returns_link_witness :
  "https://videos.example/tall.mp4" <> "".
Proof.
  refine (proj1 (proj2 (proj1 (fetch_returns_link
            (Scenario.answering (Scenario.pexels_of [Scenario.landscape; Scenario.portrait]) None 0)
            "trend" "secret" "https://videos.example/tall.mp4" (initial ∅)
            (fetch_pexels_video
               (Scenario.answering (Scenario.pexels_of [Scenario.landscape; Scenario.portrait]) None 0)
               "trend" "secret" (initial ∅)).2) _))).
  vm_compute. reflexivity.
Defined.

(** ** The driver: what a run consists of *)

Lemma bind_inr {A B} (m : M A) (k : A -> M B) st b st' :
  bind m k st = (inr b, st') ->
  exists a st1, m st = (inr a, st1) /\ k a st1 = (inr b, st').
Proof.
  intros H. apply bind_inv in H as [(e & _ & [=]) | H]. exact H.
Qed.

Lemma run_inr W cmd st a st' :
  run W cmd st = (inr a, st') ->
  exists p, subprocess_run W cmd (fs st) = inr p /\ returncode p = 0
    /\ st' = {| fs := files_after p; draws := draws st;
                log := log st ++ [EvSubprocess cmd (Some 0); EvPrint (stdout p)] |}.
Proof.
  unfold run. destruct (subprocess_run W cmd (fs st)) as [e|p]; [discriminate|].
  destruct (returncode p =? 0) eqn:E; [|discriminate].
  intros [= _ <-]. exists p. apply Z.eqb_eq in E. rewrite E. auto.
Qed.

Lemma pick_provider_inr W preference st chosen st' :
  pick_provider W preference st = (inr chosen, st') ->
  (chosen = "PEXELS" \/ chosen = "PIXABAY")
  /\ fs st' = fs st /\ log st' = log st.
Proof.
  unfold pick_provider. cbv zeta. set (p := PyStr.strip _).
  destruct (bool_decide (p ∈ providers)) eqn:E.
  - intros [= <- <-]. apply bool_decide_eq_true_1 in E.
    unfold providers in E. rewrite !elem_of_cons, elem_of_nil in E. tauto.
  - unfold providers. rewrite random_choice_two.
    generalize (random_draw W (draws st) mod 2)%nat as i.
    intros i [= <- <-]. split; [destruct i; auto | done].
Qed.

Lemma download_file_inr W url out_path st a st' :
  download_file W url out_path st = (inr a, st') ->
  exists r, download_api W url = inr r /\ status_ok (status_code r)
    /\ st' = {| fs := <[path_str out_path :=
                  Z.of_nat (String.length (String.concat "" (content r)))]> (fs st);
                draws := draws st;
                log := log st ++ [EvMkdir (path_str (path_parent out_path));
                                  EvHttpGet url [] []] |}.
Proof.
  rewrite download_file_cases. cbv zeta.
  destruct (download_api W url) as [e|r]; [discriminate|].
  destruct (_ && _) eqn:E; [discriminate|].
  unfold write_chunks. cbn [fs draws log]. rewrite written_size.
  intros [= _ <-]. exists r. repeat split.
  apply andb_false_iff in E. unfold status_ok. lia.
Qed.

Lemma bind_print {A} line (k : unit -> M A) st :
  bind (print line) k st =
    k tt {| fs := fs st; draws := draws st; log := log st ++ [EvPrint line] |}.
Proof. reflexivity. Qed.

Lemma fetch_pexels_video_inr W query key st url st' :
  fetch_pexels_video W query key st = (inr url, st') ->
  key <> "" /\ url <> "" /\ fs st' = fs st
  /\ log st' = log st ++ [EvHttpGet "https://api.pexels.com/videos/search"
                            [("Authorization", key)]
                            [("query", query); ("per_page", "10");
                             ("orientation", "portrait")]].
Proof.
  intros H.
  assert (Hk : key <> "") by (intros ->; discriminate).
  rewrite (fetch_pexels_video_cases W query key st Hk) in H. cbv zeta in H.
  destruct (pexels_api W query key) as [e|r]; [discriminate|].
  destruct (_ && _); [discriminate|].
  destruct (content r) as [data|]; [|discriminate].
  apply pexels_select_inr in H as (Hv & Hf & Hl).
  split; [done|]. split; [eapply pexels_variant_ne, Hv|]. now split.
Qed.

Lemma fetch_pixabay_video_inr W query key st url st' :
  fetch_pixabay_video W query key st = (inr url, st') ->
  key <> "" /\ url <> "" /\ fs st' = fs st
  /\ log st' = log st ++ [EvHttpGet "https://pixabay.com/api/videos/" []
                            [("key", key); ("q", query); ("per_page", "10")]].
Proof.
  intros H.
  assert (Hk : key <> "") by (intros ->; discriminate).
  rewrite (fetch_pixabay_video_cases W query key st Hk) in H. cbv zeta in H.
  destruct (pixabay_api W query key) as [e|r]; [discriminate|].
  destruct (_ && _); [discriminate|].
  destruct (content r) as [data|]; [|discriminate].
  apply pixabay_select_inr in H as (Hv & Hf & Hl).
  split; [done|]. split; [eapply pixabay_variant_ne, Hv|]. now split.
Qed.

(** The fetch the driver makes for the provider [chosen]. *)
Lemma main_fetch_inr W chosen query st url st' :
  (if String.eqb chosen "PEXELS"
   then fetch_pexels_video W query (env (environ W) "PEXELS_API_KEY" "")
   else fetch_pixabay_video W query (env (environ W) "PIXABAY_API_KEY" "")) st
    = (inr url, st') ->
  url <> "" /\ fs st' = fs st /\ log st' = log st ++ [search_request W chosen query].
Proof.
  unfold search_request. destruct (String.eqb chosen "PEXELS"); intros H.
  - apply fetch_pexels_video_inr in H. tauto.
  - apply fetch_pixabay_video_inr in H. tauto.
Qed.

(** X10.  Every successful run is the same sequence of steps: the synthesizer, one
    search, one download and the encoder, each once and in this order, both
    tools exiting with status 0.  The summary repeats the configuration, names
    PEXELS or PIXABAY as the provider and [out/final.mp4] as the output, and
    that file exists with at least 10,000 bytes. *)
Theorem main_success_trace (W : world) (files : gmap string Z)
    (s : summary) (st' : state) :
  run_main W files = (inr s, st') ->
  let script := env (environ W) "SCRIPT" "" in
  let voice := env (environ W) "VOICE" "en-US-AriaNeural" in
  let query := safe_filename (env (environ W) "TOPIC" "trend") 60 in
  PyStr.all PyStr.isspace script = false
  /\ s = {| job_id := env (environ W) "JOB_ID" ("job_" +:+ PyStr.of_int (time_now W));
            topic := env (environ W) "TOPIC" "trend";
            provider := provider s;
            voice := voice;
            output := "out/final.mp4" |}
  /\ (provider s = "PEXELS" \/ provider s = "PIXABAY")
  /\ (exists n, fs st' !! "out/final.mp4" = Some n /\ 10000 <= n)
  /\ exists out1 out2 url,
       url <> ""
       /\ log st' =
            [EvMkdir "out"; EvPrint ("[TTS] voice=" +:+ voice); EvMkdir "out";
             EvSubprocess ["edge-tts"; "--voice"; voice; "--text"; script;
                           "--write-media"; "out/voice.wav"] (Some 0);
             EvPrint out1;
             EvPrint ("[VIDEO] provider=" +:+ provider s +:+ " query=" +:+ query);
             search_request W (provider s) query;
             EvPrint ("[DOWNLOAD] " +:+ url); EvMkdir "out"; EvHttpGet url [] [];
             EvPrint "[FFMPEG] rendering out/final.mp4";
             EvSubprocess ffmpeg_cmd (Some 0); EvPrint out2; EvPrint "✅ DONE"].
Proof.
  intros H. cbv zeta. unfold run_main, main in H. cbv zeta in H.
  rewrite truthy_strip in H.
  destruct (PyStr.all PyStr.isspace (env (environ W) "SCRIPT" "")) eqn:Hs;
    cbn [negb] in H; [discriminate|].
  split; [reflexivity|].
  unfold mkdir at 1, tts_edge, mkdir in H.
  rewrite bind_emit, bind_print, bind_assoc, bind_emit in H.
  apply bind_inr in H as ([] & st1 & H1 & H).
  apply run_inr in H1 as (p1 & _ & _ & ->).
  apply bind_inr in H as (chosen & st2 & H2 & H).
  apply pick_provider_inr in H2 as (Hc & Hf2 & Hl2).
  rewrite bind_print in H.
  apply bind_inr in H as (url & st3 & H3 & H).
  apply main_fetch_inr in H3 as (Hu & Hf3 & Hl3).
  rewrite bind_print in H.
  apply bind_inr in H as ([] & st4 & H4 & H).
  apply download_file_inr in H4 as (r & _ & _ & ->).
  rewrite bind_print in H.
  apply bind_inr in H as ([] & st5 & H5 & H).
  apply run_inr in H5 as (p2 & _ & _ & ->).
  unfold bind at 1, stat in H. cbn [fs] in H.
  destruct (files_after p2 !! path_str final_mp4) as [n|] eqn:Hn; [|discriminate].
  destruct (n <? 10000) eqn:Hlt; [discriminate|].
  rewrite bind_print in H. injection H as <- <-.
  cbn [provider fs log draws].
  split; [reflexivity|]. split; [exact Hc|].
  split; [exists n; split; [exact Hn | lia]|].
  exists (stdout p1), (stdout p2), url. split; [exact Hu|].
  rewrite Hl3. cbn [log]. rewrite Hl2. reflexivity.
Qed.

Lemma main_success_trace_witness :
  exists n,
    fs (run_main (Scenario.studio Scenario.vars (Some 20000) 0) ∅).2
      !! "out/final.mp4" = Some n /\ 10000 <= n.
Proof.
  refine (proj1 (proj2 (proj2 (proj2 (main_success_trace
            (Scenario.studio Scenario.vars (Some 20000) 0) ∅
            {| job_id := "job_1700000000"; topic := "trend"; provider := "PEXELS";
               voice := "en-US-AriaNeural"; output := "out/final.mp4" |}
            (run_main (Scenario.studio Scenario.vars (Some 20000) 0) ∅).2 _))))).
  vm_compute. reflexivity.
Defined.

(** ** The driver: failures of the tools *)

Lemma bind_run_ok {A} W cmd (k : unit -> M A) st p :
  subprocess_run W cmd (fs st) = inr p -> returncode p = 0 ->
  bind (run W cmd) k st =
    k tt {| fs := files_after p; draws := draws st;
            log := log st ++ [EvSubprocess cmd (Some 0); EvPrint (stdout p)] |}.
Proof. intros Hp Hrc. unfold bind, run. now rewrite Hp, Hrc. Qed.

Lemma bind_run_exit {A} W cmd (k : unit -> M A) st p :
  subprocess_run W cmd (fs st) = inr p -> returncode p <> 0 ->
  bind (run W cmd) k st =
    (inl (RuntimeError ("Command failed: " +:+ PyStr.join " " cmd)),
     {| fs := files_after p; draws := draws st;
        log := log st ++ [EvSubprocess cmd (Some (returncode p));
                          EvPrint (stdout p)] |}).
Proof.
  intros Hp Hrc. unfold bind, run. rewrite Hp.
  apply Z.eqb_neq in Hrc. now rewrite Hrc.
Qed.

Lemma bind_run_launch {A} W cmd (k : unit -> M A) st e :
  subprocess_run W cmd (fs st) = inl e ->
  bind (run W cmd) k st =
    (inl e, {| fs := fs st; draws := draws st;
               log := log st ++ [EvSubprocess cmd None] |}).
Proof. intros He. unfold bind, run. now rewrite He. Qed.

(** X11.  A synthesizer that exits with a non-zero status ends the run with
    [RuntimeError] "Command failed: edge-tts ..." after its output is printed;
    one that cannot be started ends it with the error of the launch.  Either
    way nothing else was attempted: no request was sent and the encoder was
    not run. *)
Theorem main_synthesis_failure (W : world) (files : gmap string Z) :
  let script := env (environ W) "SCRIPT" "" in
  let voice := env (environ W) "VOICE" "en-US-AriaNeural" in
  let cmd := ["edge-tts"; "--voice"; voice; "--text"; script;
              "--write-media"; "out/voice.wav"] in
  PyStr.all PyStr.isspace script = false ->
  (forall p, subprocess_run W cmd files = inr p -> returncode p <> 0 ->
     run_main W files =
       (inl (RuntimeError ("Command failed: edge-tts --voice " +:+ voice +:+
                           " --text " +:+ script +:+ " --write-media out/voice.wav")),
        {| fs := files_after p; draws := 0;
           log := [EvMkdir "out"; EvPrint ("[TTS] voice=" +:+ voice); EvMkdir "out";
                   EvSubprocess cmd (Some (returncode p)); EvPrint (stdout p)] |}))
  /\ (forall e, subprocess_run W cmd files = inl e ->
     run_main W files =
       (inl e,
        {| fs := files; draws := 0;
           log := [EvMkdir "out"; EvPrint ("[TTS] voice=" +:+ voice); EvMkdir "out";
                   EvSubprocess cmd None] |})).
Proof.
  cbv zeta. intros Hs.
  unfold run_main, main. cbv zeta. rewrite truthy_strip, Hs. cbn [negb].
  unfold mkdir at 1, tts_edge, mkdir.
  rewrite bind_emit, bind_print, bind_assoc, bind_emit.
  change (tts_cmd ?t ?v audio_wav)
    with ["edge-tts"; "--voice"; v; "--text"; t; "--write-media"; "out/voice.wav"].
  split.
  - intros p Hp Hrc.
    erewrite bind_run_exit; [reflexivity | exact Hp | exact Hrc].
  - intros e He. erewrite bind_run_launch; [reflexivity | exact He].
Qed.

Lemma main_synthesis_failure_witness :
  (run_main (Faults.world_of Scenario.vars (Faults.exits 1) Faults.offline
               Faults.offline Faults.offline 0) ∅).1
    = inl (RuntimeError
             "Command failed: edge-tts --voice en-US-AriaNeural --text Hello there --write-media out/voice.wav").
Proof.
  rewrite (proj1 (main_synthesis_failure
                    (Faults.world_of Scenario.vars (Faults.exits 1) Faults.offline
                       Faults.offline Faults.offline 0) ∅ eq_refl)
                 {| returncode := 1; stdout := "log"; files_after := ∅ |} eq_refl);
    [reflexivity | discriminate].
Defined.

(** ** The driver: a missing credential *)

Lemma bind_value {A B} (m : M A) (k : A -> M B) st a st1 :
  m st = (inr a, st1) -> bind m k st = k a st1.
Proof. intros H. unfold bind. now rewrite H. Qed.

Lemma pick_provider_value W preference st st0 :
  draws st = draws st0 ->
  (pick_provider W preference st).1 = (pick_provider W preference st0).1.
Proof.
  intros Hd. unfold pick_provider. cbv zeta.
  destruct (bool_decide _); [reflexivity|].
  unfold providers. now rewrite !random_choice_two, Hd.
Qed.

Lemma pick_provider_returns W preference st :
  exists chosen st', pick_provider W preference st = (inr chosen, st').
Proof.
  unfold pick_provider. cbv zeta.
  destruct (bool_decide _); [unfold ret; eauto|].
  unfold providers. rewrite random_choice_two. eauto.
Qed.

(** X12.  When the synthesizer has succeeded and the key of the provider that is
    selected is unset or empty, the run ends with [RuntimeError]
    "<PROVIDER>_API_KEY is missing in GitHub Secrets." right after the
    provider is announced: no request is sent, nothing is downloaded or
    encoded. *)
Theorem main_missing_credential (W : world) (files : gmap string Z)
    (p : completed) (chosen : string) :
  let script := env (environ W) "SCRIPT" "" in
  let voice := env (environ W) "VOICE" "en-US-AriaNeural" in
  let query := safe_filename (env (environ W) "TOPIC" "trend") 60 in
  let cmd := ["edge-tts"; "--voice"; voice; "--text"; script;
              "--write-media"; "out/voice.wav"] in
  PyStr.all PyStr.isspace script = false ->
  subprocess_run W cmd files = inr p -> returncode p = 0 ->
  (pick_provider W (env (environ W) "PROVIDER" "BOTH") (initial files)).1 = inr chosen ->
  env (environ W) (chosen +:+ "_API_KEY") "" = "" ->
  (run_main W files).1
    = inl (RuntimeError (chosen +:+ "_API_KEY is missing in GitHub Secrets."))
  /\ fs (run_main W files).2 = files_after p
  /\ log (run_main W files).2 =
       [EvMkdir "out"; EvPrint ("[TTS] voice=" +:+ voice); EvMkdir "out";
        EvSubprocess cmd (Some 0); EvPrint (stdout p);
        EvPrint ("[VIDEO] provider=" +:+ chosen +:+ " query=" +:+ query)].
Proof.
  cbv zeta. intros Hs Hp Hrc Hc Hk.
  unfold run_main, main. cbv zeta. rewrite truthy_strip, Hs. cbn [negb].
  unfold mkdir at 1, tts_edge, mkdir.
  rewrite bind_emit, bind_print, bind_assoc, bind_emit.
  change (tts_cmd ?t ?v audio_wav)
    with ["edge-tts"; "--voice"; v; "--text"; t; "--write-media"; "out/voice.wav"].
  erewrite bind_run_ok; [|exact Hp|exact Hrc].
  match goal with |- context [bind (pick_provider W ?pr) _ ?st] =>
    destruct (pick_provider_returns W pr st) as (c & st5 & E);
    pose proof (pick_provider_value W pr st (initial files) eq_refl) as Hv
  end.
  rewrite E, Hc in Hv. cbn [fst] in Hv. injection Hv as ->.
  rewrite (bind_value _ _ _ _ _ E), bind_print.
  apply pick_provider_inr in E as (Hch & Hf & Hl).
  destruct Hch as [-> | ->].
  - change ("PEXELS" +:+ "_API_KEY") with "PEXELS_API_KEY" in Hk.
    cbn [String.eqb Ascii.eqb Bool.eqb]. rewrite Hk.
    cbn. rewrite Hf, Hl. now repeat split.
  - change ("PIXABAY" +:+ "_API_KEY") with "PIXABAY_API_KEY" in Hk.
    cbn [String.eqb Ascii.eqb Bool.eqb]. rewrite Hk.
    cbn. rewrite Hf, Hl. now repeat split.
Qed.

Lemma main_missing_credential_witness :
  (run_main (Faults.world_of (<["PROVIDER" := "pixabay"]> Scenario.vars)
               (Faults.exits 0) Faults.offline Faults.offline Faults.offline 0) ∅).1
    = inl (RuntimeError "PIXABAY_API_KEY is missing in GitHub Secrets.").
Proof.
  refine (proj1 (main_missing_credential
            (Faults.world_of (<["PROVIDER" := "pixabay"]> Scenario.vars)
               (Faults.exits 0) Faults.offline Faults.offline Faults.offline 0) ∅
            {| returncode := 0; stdout := "log"; files_after := ∅ |} "PIXABAY"
            _ _ _ _ _)); reflexivity.
Defined.

(** ** The driver: a failing encoder *)

Section Encoder.
Variable W : world.

Lemma passive_not_encoder_run : passive (fun e => ~ encoder_run e).
Proof. split; intros; intros [status [=]]. Qed.

Lemma tts_cmd_not_encoder_run text voice out_wav status :
  ~ encoder_run (EvSubprocess (tts_cmd text voice out_wav) status).
Proof. intros [status' [=]]. Qed.

Lemma quiet_no_encoder l status :
  Forall (fun e => ~ encoder_run e) l -> EvSubprocess ffmpeg_cmd status ∉ l.
Proof.
  rewrite Forall_forall. intros H Hin. apply (H _ Hin). now exists status.
Qed.

Lemma before_encoder_bind {A} (m : M A) (k : A -> M summary) :
  appends (fun e => ~ encoder_run e) m ->
  (forall a, before_encoder (k a) encoder_verdict) ->
  before_encoder (bind m k) encoder_verdict.
Proof.
  intros Hm Hk st r st' Hst H.
  apply bind_inv in H as [(e & H & ->) | (a & st1 & H1 & H2)].
  - destruct (Hm _ _ _ H) as (l & E & Hl).
    intros status Hin. exfalso. revert Hin. apply quiet_no_encoder.
    rewrite E. now apply Forall_app.
  - destruct (Hm _ _ _ H1) as (l & E & Hl).
    apply (Hk a st1 r st'); [|exact H2]. rewrite E. now apply Forall_app.
Qed.

(** The encoder step and the check: one encoder event is logged, and a
    status other than 0 decides the result. *)
Lemma encode_cases (sm : summary) st r st' :
  bind (run W ffmpeg_cmd) (fun _ =>
    bind (stat final_mp4) (fun size =>
      match size with
      | None => raise output_invalid
      | Some n =>
          if n <? 10000 then raise output_invalid
          else bind (print "✅ DONE") (fun _ => ret sm)
      end)) st = (r, st') ->
  exists status tail,
    log st' = log st ++ EvSubprocess ffmpeg_cmd status :: tail
    /\ Forall (fun e => ~ encoder_run e) tail
    /\ match status with
       | None => exists e, r = inl e
       | Some rc =>
           rc <> 0 ->
           r = inl (RuntimeError ("Command failed: " +:+ PyStr.join " " ffmpeg_cmd))
       end.
Proof.
  pose proof passive_not_encoder_run as [Hprint _ _].
  unfold bind, run, stat.
  destruct (subprocess_run W ffmpeg_cmd (fs st)) as [e|p].
  { intros [= <- <-]. exists None, []. cbn. eauto. }
  destruct (returncode p =? 0) eqn:R.
  - apply Z.eqb_eq in R. cbn [fs].
    destruct (files_after p !! path_str final_mp4) as [n|];
      [destruct (n <? 10000)|]; intros [= <- <-]; cbn [log];
      eexists (Some (returncode p)), _;
      (split; [try rewrite <- app_assoc; reflexivity|]);
      (split; [repeat constructor; apply Hprint | intros Hrc; lia]).
  - intros [= <- <-]. exists (Some (returncode p)), [EvPrint (stdout p)].
    cbn. repeat split; auto.
Qed.

Lemma before_encoder_check (sm : summary) :
  output sm = path_str final_mp4 ->
  before_encoder
    (bind (run W ffmpeg_cmd) (fun _ =>
     bind (stat final_mp4) (fun size =>
       match size with
       | None => raise output_invalid
       | Some n =>
           if n <? 10000 then raise output_invalid
           else bind (print "✅ DONE") (fun _ => ret sm)
       end)))
    encoder_verdict.
Proof.
  intros Hsm st r st' Hst H status Hin.
  destruct (encode_cases sm st r st' H) as (status' & tail & E & Ht & Hv).
  assert (status = status') as ->.
  { rewrite E, elem_of_app, elem_of_cons in Hin.
    destruct Hin as [Hin | [[= ->] | Hin]]; [|done|].
    - now apply quiet_no_encoder in Hin.
    - now apply quiet_no_encoder in Hin. }
  destruct status' as [rc|]; [|exact Hv].
  destruct (rc =? 0) eqn:R; [|apply Hv; now apply Z.eqb_neq].
  apply Z.eqb_eq in R. subst rc.
  eapply (after_encoder_check W sm Hsm st r st'); [|exact H|exact Hin].
  now apply quiet_no_encoder.
Qed.

Lemma main_before_encoder : before_encoder (main W) encoder_verdict.
Proof.
  pose proof passive_not_encoder_run as HP.
  unfold main. cbv zeta.
  destruct (negb _).
  { intros st r st' Hst [= <- <-] status Hin.
    now apply quiet_no_encoder in Hin. }
  apply before_encoder_bind; [now apply appends_mkdir | intros _].
  apply before_encoder_bind; [now apply appends_print | intros _].
  apply before_encoder_bind;
    [apply appends_tts_edge; auto using tts_cmd_not_encoder_run | intros _].
  apply before_encoder_bind; [apply appends_pick_provider | intros chosen].
  apply before_encoder_bind; [now apply appends_print | intros _].
  apply before_encoder_bind.
  { destruct (String.eqb chosen "PEXELS");
      [now apply appends_fetch_pexels_video | now apply appends_fetch_pixabay_video]. }
  intros video_url.
  apply before_encoder_bind; [now apply appends_print | intros _].
  apply before_encoder_bind; [now apply appends_download_file | intros _].
  apply before_encoder_bind; [now apply appends_print | intros _].
  now apply before_encoder_check.
Qed.

End Encoder.

(** X13.  In every run in which the encoder exited with a status other than 0 the
    result is [RuntimeError] "Command failed: ffmpeg -y -i out/bg.mp4 ...",
    the full command line; and in every run in which the encoder could not
    be started the run fails. *)
Theorem main_encoder_failure (W : world) (files : gmap string Z)
    (r : exn + summary) (st' : state) :
  run_main W files = (r, st') ->
  (forall rc, EvSubprocess ffmpeg_cmd (Some rc) ∈ log st' -> rc <> 0 ->
     r = inl (RuntimeError
       "Command failed: ffmpeg -y -i out/bg.mp4 -i out/voice.wav -vf scale=1080:1920:force_original_aspect_ratio=increase,crop=1080:1920 -c:v libx264 -pix_fmt yuv420p -c:a aac -shortest out/final.mp4"))
  /\ (EvSubprocess ffmpeg_cmd None ∈ log st' -> exists e, r = inl e).
Proof.
  intros H.
  assert (Hv : encoder_verdict r st').
  { eapply (main_before_encoder W); [|exact H]. constructor. }
  split.
  - intros rc Hin Hrc. specialize (Hv _ Hin). cbn beta iota in Hv.
    apply Z.eqb_neq in Hrc. rewrite Hrc in Hv. exact Hv.
  - intros Hin. exact (Hv _ Hin).
Qed.

Lemma main_encoder_failure_witness :
  (run_main (Faults.world_of Scenario.vars (Faults.encoder_exits 1)
               (Faults.answer 200 (Scenario.pexels_of [Scenario.portrait]))
               Faults.offline (Faults.answer 200 ["data"]) 0) ∅).1
    = inl (RuntimeError
       "Command failed: ffmpeg -y -i out/bg.mp4 -i out/voice.wav -vf scale=1080:1920:force_original_aspect_ratio=increase,crop=1080:1920 -c:v libx264 -pix_fmt yuv420p -c:a aac -shortest out/final.mp4").
Proof.
  refine (proj1 (main_encoder_failure
            (Faults.world_of Scenario.vars (Faults.encoder_exits 1)
               (Faults.answer 200 (Scenario.pexels_of [Scenario.portrait]))
               Faults.offline (Faults.answer 200 ["data"]) 0) ∅ _ _
            (surjective_pairing _)) 1 _ _).
  - vm_compute. repeat first [apply list_elem_of_here | apply list_elem_of_further].
  - discriminate.
Defined.

(** ** The driver: what precedes the encoder *)

Lemma bind_reaches_encoder {A B} (m : M A) (k : A -> M B) st r st' :
  appends (fun e => ~ encoder_run e) m ->
  Forall (fun e => ~ encoder_run e) (log st) ->
  bind m k st = (r, st') ->
  (exists status, EvSubprocess ffmpeg_cmd status ∈ log st') ->
  exists a st1, m st = (inr a, st1) /\ k a st1 = (r, st').
Proof.
  intros Hm Hst H (status & Hin).
  apply bind_inv in H as [(e & H & ->) | H]; [|exact H].
  destruct (Hm _ _ _ H) as (l & E & Hl).
  exfalso. revert Hin. apply quiet_no_encoder. rewrite E. now apply Forall_app.
Qed.

Ltac quiet_log :=
  repeat (apply Forall_cons; split; [intros [? [=]]|]);
  try apply Forall_nil; try exact I.

(** X14.  The encoder is run only at the end of one fixed sequence of steps: in
    every run whose log has an encoder invocation, the synthesizer exited with
    0, one search returned a non-empty URL, that URL was requested, and then
    the encoder was invoked, once. *)
Theorem main_encoder_reached (W : world) (files : gmap string Z)
    (r : exn + summary) (st' : state) :
  run_main W files = (r, st') ->
  (exists status, EvSubprocess ffmpeg_cmd status ∈ log st') ->
  let script := env (environ W) "SCRIPT" "" in
  let voice := env (environ W) "VOICE" "en-US-AriaNeural" in
  let query := safe_filename (env (environ W) "TOPIC" "trend") 60 in
  exists chosen out1 url status tail,
    (chosen = "PEXELS" \/ chosen = "PIXABAY")
    /\ url <> ""
    /\ Forall (fun e => ~ encoder_run e) tail
    /\ log st' =
         [EvMkdir "out"; EvPrint ("[TTS] voice=" +:+ voice); EvMkdir "out";
          EvSubprocess ["edge-tts"; "--voice"; voice; "--text"; script;
                        "--write-media"; "out/voice.wav"] (Some 0);
          EvPrint out1;
          EvPrint ("[VIDEO] provider=" +:+ chosen +:+ " query=" +:+ query);
          search_request W chosen query;
          EvPrint ("[DOWNLOAD] " +:+ url); EvMkdir "out"; EvHttpGet url [] [];
          EvPrint "[FFMPEG] rendering out/final.mp4";
          EvSubprocess ffmpeg_cmd status] ++ tail.
Proof.
  intros H Henc. cbv zeta.
  pose proof passive_not_encoder_run as HP.
  unfold run_main, main in H. cbv zeta in H.
  destruct (negb _) eqn:Hs in H.
  { injection H as <- <-. destruct Henc as (status & Hin).
    now apply elem_of_nil in Hin. }
  unfold mkdir at 1, tts_edge, mkdir in H.
  rewrite bind_emit, bind_print, bind_assoc, bind_emit in H.
  apply bind_reaches_encoder in H as ([] & st1 & H1 & H); [| |quiet_log|exact Henc].
  2:{ apply appends_run; [apply tts_cmd_not_encoder_run | apply HP]. }
  apply run_inr in H1 as (p1 & _ & _ & ->).
  apply bind_reaches_encoder in H as (chosen & st2 & H2 & H);
    [|apply appends_pick_provider|quiet_log|exact Henc].
  apply pick_provider_inr in H2 as (Hc & Hf2 & Hl2).
  rewrite bind_print in H.
  apply bind_reaches_encoder in H as (url & st3 & H3 & H); [| | |exact Henc].
  2:{ destruct (String.eqb chosen "PEXELS");
        [now apply appends_fetch_pexels_video | now apply appends_fetch_pixabay_video]. }
  2:{ cbn [log]. rewrite Hl2. cbn [log app]. quiet_log. }
  apply main_fetch_inr in H3 as (Hu & Hf3 & Hl3).
  cbn [log fs] in Hl3. rewrite Hl2 in Hl3. cbn [log app] in Hl3.
  assert (Hq3 : Forall (fun e => ~ encoder_run e) (log st3)).
  { rewrite Hl3. unfold search_request.
    destruct (String.eqb chosen "PEXELS"); quiet_log. }
  rewrite bind_print in H.
  apply bind_reaches_encoder in H as ([] & st4 & H4 & H);
    [|now apply appends_download_file| |exact Henc].
  2:{ cbn [log]. apply Forall_app. split; [exact Hq3 | quiet_log]. }
  apply download_file_inr in H4 as (rsp & _ & _ & ->).
  rewrite bind_print in H.
  apply encode_cases in H as (status & tail & E & Ht & _).
  exists chosen, (stdout p1), url, status, tail.
  split; [exact Hc|]. split; [exact Hu|]. split; [exact Ht|].
  rewrite E. cbn [log]. rewrite Hl3. reflexivity.
Qed.

Lemma main_encoder_reached_witness :
  exists url,
    url <> ""
    /\ EvHttpGet url [] []
         ∈ log (run_main (Scenario.studio Scenario.vars (Some 0) 0) ∅).2.
Proof.
  destruct (main_encoder_reached (Scenario.studio Scenario.vars (Some 0) 0) ∅ _ _
              (surjective_pairing _)) as (chosen & out1 & url & status & tail & _ & Hu & _ & E).
  - exists (Some 0). vm_compute.
    repeat first [apply list_elem_of_here | apply list_elem_of_further].
  - exists url. split; [exact Hu|]. rewrite E.
    apply elem_of_app. left.
    repeat first [apply list_elem_of_here | apply list_elem_of_further].
Defined.
